(** * FUTURE_DS_02: churn pipeline (process_data, calculate_risk_scores,
      create_dashboard, generate_report, main)

    A shallow embedding of [FUTURE_DS_02.py].  A pandas DataFrame is a
    row count together with a finite map from column names to columns; a
    column is a list of cells.  Operations that pandas performs on whole
    columns are list operations here, and Python exceptions are the [Raise]
    branch of an error monad.  The file system is a finite map from paths to
    the tables [pd.read_csv] reads from them; the console and the files
    written are threaded through [create_dashboard], [generate_report] and
    [main] as a [world].

    Numbers: an int64 cell is a [Z] with its wrap-around written out
    ([wrap64]); a float64 cell is an exact rational or one of the special
    values +inf, -inf, NaN.  Rounding is not modelled; overflow past the
    float64 range is modelled where the median adds its two middle values
    ([fadd64]).  The string parser of
    [pd.to_numeric] and the seaborn/matplotlib drawing calls are parameters. *)

From Stdlib Require Import QArith Lqa.
From stdpp Require Import base option list strings gmap fin_maps.

Local Open Scope Z_scope.

(** ** Cells *)

Inductive float : Type :=
  | Finite (q : Q)
  | PInf
  | NInf
  | NaN.

Inductive value : Type :=
  | VStr (s : string)
  | VInt (z : Z)
  | VFloat (f : float).

(** [pd.isna] on one cell. *)
Definition isna (v : value) : bool :=
  match v with
  | VFloat NaN => true
  | _ => false
  end.

(** ** int64 arithmetic *)

Definition wrap64 (z : Z) : Z := (z + 2 ^ 63) mod 2 ^ 64 - 2 ^ 63.

Definition add64 (x y : Z) : Z := wrap64 (x + y).

Definition int64_range (z : Z) : Prop := - 2 ^ 63 <= z < 2 ^ 63.

(** ** float64 arithmetic on exact values *)

Definition Qzero (q : Q) : bool := Qeq_bool q 0.
Definition Qpos (q : Q) : bool := negb (Qle_bool q 0).

Definition fadd (x y : float) : float :=
  match x, y with
  | NaN, _ | _, NaN => NaN
  | PInf, NInf | NInf, PInf => NaN
  | PInf, _ | _, PInf => PInf
  | NInf, _ | _, NInf => NInf
  | Finite a, Finite b => Finite (a + b)
  end.

Definition fmul (x y : float) : float :=
  match x, y with
  | NaN, _ | _, NaN => NaN
  | Finite a, Finite b => Finite (a * b)
  | Finite a, PInf | PInf, Finite a =>
      if Qzero a then NaN else if Qpos a then PInf else NInf
  | Finite a, NInf | NInf, Finite a =>
      if Qzero a then NaN else if Qpos a then NInf else PInf
  | PInf, PInf | NInf, NInf => PInf
  | PInf, NInf | NInf, PInf => NaN
  end.

(** True division; a zero divisor gives an infinity or NaN, never an
    exception (numpy semantics). *)
Definition fdiv (x y : float) : float :=
  match x, y with
  | NaN, _ | _, NaN => NaN
  | Finite a, Finite b =>
      if Qzero b then
        (if Qzero a then NaN else if Qpos a then PInf else NInf)
      else Finite (a / b)
  | Finite _, (PInf | NInf) => Finite 0
  | PInf, Finite b => if Qle_bool 0 b then PInf else NInf
  | NInf, Finite b => if Qle_bool 0 b then NInf else PInf
  | (PInf | NInf), (PInf | NInf) => NaN
  end.

(** [x < y]; any comparison with NaN is false. *)
Definition flt (x y : float) : bool :=
  match x, y with
  | NaN, _ | _, NaN => false
  | _, NInf => false
  | NInf, _ => true
  | PInf, _ => false
  | Finite _, PInf => true
  | Finite a, Finite b => negb (Qle_bool b a)
  end.

(** [x <= y]; any comparison with NaN is false. *)
Definition fle (x y : float) : bool :=
  match x, y with
  | NaN, _ | _, NaN => false
  | NInf, _ => true
  | _, PInf => true
  | _, NInf => false
  | PInf, _ => false
  | Finite a, Finite b => Qle_bool a b
  end.

Definition float_of_Z (z : Z) : float := Finite (inject_Z z).

(** The magnitude from which a float64 result rounds to an infinity: the
    largest finite float64 plus half a unit in its last place. *)
Definition float64_overflow : Q := inject_Z (2 ^ 1024 - 2 ^ 970).

(** The float64 outcome of an exact result: an infinity once the magnitude
    reaches [float64_overflow]. *)
Definition overflow64 (x : float) : float :=
  match x with
  | Finite q =>
      if Qle_bool float64_overflow q then PInf
      else if Qle_bool q (- float64_overflow) then NInf
      else Finite q
  | _ => x
  end.

(** float64 addition with its overflow. *)
Definition fadd64 (x y : float) : float := overflow64 (fadd x y).

(** ** Exceptions *)

(** [KeyError k] is the KeyError of a lookup of the one column [k];
    [KeyErrorNotInIndex missing] is the KeyError of a lookup of a list of
    columns, whose message lists the absent ones. *)
Inductive exn : Type :=
  | FileNotFoundError
  | KeyError (k : string)
  | KeyErrorNotInIndex (missing : list string)
  | TypeError.

Inductive result (A : Type) : Type :=
  | Ok (a : A)
  | Raise (e : exn).
Arguments Ok {A} a.
Arguments Raise {A} e.

#[export] Instance result_ret : MRet result := fun _ a => Ok a.
#[export] Instance result_bind : MBind result := fun _ _ f m =>
  match m with
  | Ok a => f a
  | Raise e => Raise e
  end.

(** Elementwise application of a fallible cell operation. *)
Fixpoint map_cells {A B} (f : A → result B) (l : list A) : result (list B) :=
  match l with
  | [] => Ok []
  | x :: l' => y ← f x; ys ← map_cells f l'; Ok (y :: ys)
  end.

(** ** DataFrames *)

Record DataFrame : Type := mkDF {
  nrows : nat;
  columns : gmap string (list value)
}.

(** Every column has one cell per row. *)
Definition wf (df : DataFrame) : Prop :=
  ∀ k c, columns df !! k = Some c → length c = nrows df.

(** [df[k]] *)
Definition getitem (df : DataFrame) (k : string) : result (list value) :=
  match columns df !! k with
  | Some c => Ok c
  | None => Raise (KeyError k)
  end.

(** [df[k] = col] *)
Definition setitem (df : DataFrame) (k : string) (col : list value) : DataFrame :=
  mkDF (nrows df) (<[k := col]> (columns df)).

(** [df[k] = v] for a scalar [v]. *)
Definition setitem_scalar (df : DataFrame) (k : string) (v : value) : DataFrame :=
  setitem df k (replicate (nrows df) v).

(** The cell of column [k] in row [i]. *)
Definition cell (df : DataFrame) (k : string) (i : nat) : option value :=
  c ← columns df !! k; c !! i.

(** ** Cell operations used by the program *)

(** [v == s] for a string literal [s]; a cell that is not that string,
    NaN included, compares unequal. *)
Definition eq_str (s : string) (v : value) : bool :=
  match v with
  | VStr t => String.eqb t s
  | _ => false
  end.

(** [v < k] for an integer literal [k]. *)
Definition lt_int (k : Z) (v : value) : result bool :=
  match v with
  | VStr _ => Raise TypeError
  | VInt z => Ok (z <? k)
  | VFloat f => Ok (flt f (float_of_Z k))
  end.

(** [v >= k] for an integer literal [k]. *)
Definition ge_int (k : Z) (v : value) : result bool :=
  match v with
  | VStr _ => Raise TypeError
  | VInt z => Ok (k <=? z)
  | VFloat f => Ok (fle (float_of_Z k) f)
  end.

(** [v + k] for an integer literal [k]; on an int64 cell the addition is
    numpy's, which wraps around silently. *)
Definition add_int (k : Z) (v : value) : result value :=
  match v with
  | VStr _ => Raise TypeError
  | VInt z => Ok (VInt (add64 z k))
  | VFloat f => Ok (VFloat (fadd f (float_of_Z k)))
  end.

(** The float64 value of a numeric cell. *)
Definition to_float (v : value) : result float :=
  match v with
  | VStr _ => Raise TypeError
  | VInt z => Ok (float_of_Z z)
  | VFloat f => Ok f
  end.

(** [a / b]: true division, always a float. *)
Definition truediv (a b : value) : result value :=
  x ← to_float a; y ← to_float b; Ok (VFloat (fdiv x y)).

(** ** calculate_risk_scores *)

(** [df.loc[mask, k] += n] *)
Definition loc_iadd (df : DataFrame) (mask : list bool) (k : string) (n : Z)
  : result DataFrame :=
  col ← getitem df k;
  col' ← map_cells (λ p : bool * value, if p.1 then add_int n p.2 else Ok p.2)
                   (zip mask col);
  Ok (setitem df k col').

Definition calculate_risk_scores (df : DataFrame) : result DataFrame :=
  let df := setitem_scalar df "Risk_Score" (VInt 0) in
  c ← getitem df "Contract";
  df ← loc_iadd df (eq_str "Month-to-month" <$> c) "Risk_Score" 40;
  c ← getitem df "InternetService";
  df ← loc_iadd df (eq_str "Fiber optic" <$> c) "Risk_Score" 20;
  c ← getitem df "TechSupport";
  df ← loc_iadd df (eq_str "No" <$> c) "Risk_Score" 20;
  c ← getitem df "tenure";
  m ← map_cells (lt_int 12) c;
  df ← loc_iadd df m "Risk_Score" 20;
  Ok df.

(** ** process_data *)

(** [Series.map({'Yes': 1, 'No': 0})] on one cell: a cell that is not a
    key of the dictionary maps to NaN. *)
Definition churn_map (v : value) : value :=
  if eq_str "Yes" v then VInt 1
  else if eq_str "No" v then VInt 0
  else VFloat NaN.

Definition services : list string :=
  ["OnlineSecurity"; "OnlineBackup"; "DeviceProtection"; "TechSupport";
   "StreamingTV"; "StreamingMovies"].

Definition absent (df : DataFrame) (k : string) : bool :=
  match columns df !! k with
  | None => true
  | Some _ => false
  end.

(** [df[ks]] for a list of column names: one lookup, which raises a KeyError
    that lists every absent column. *)
Definition getitems (df : DataFrame) (ks : list string) : result (list (list value)) :=
  match filter (λ k, absent df k = true) ks with
  | [] => map_cells (getitem df) ks
  | missing => Raise (KeyErrorNotInIndex missing)
  end.

Definition Z_of_bool (b : bool) : Z := if b then 1 else 0.

(** [frame.sum(axis=1)] on a frame of boolean columns with [n] rows. *)
Definition sum_axis1 (n : nat) (frame : list (list bool)) : list Z :=
  foldr (zip_with (λ (b : bool) (acc : Z), add64 (Z_of_bool b) acc))
        (replicate n 0) frame.

(** [lambda x: 1 if x in ['One year', 'Two year'] else 0] *)
Definition is_long_term (x : value) : value :=
  if eq_str "One year" x || eq_str "Two year" x then VInt 1 else VInt 0.

(** Lines 27-41: the derived columns. *)
Definition engineer_features (df : DataFrame) : result DataFrame :=
  c ← getitem df "Churn";
  let df := setitem df "Churn_Numeric" (churn_map <$> (c : list value)) in
  frame ← getitems df services;
  let df := setitem df "Service_Count"
              (VInt <$> sum_axis1 (nrows df) (fmap (M:=list) (eq_str "Yes") <$> frame)) in
  mc ← getitem df "MonthlyCharges";
  t ← getitem df "tenure";
  t1 ← map_cells (add_int 1) t;
  cv ← map_cells (λ p : value * value, truediv p.1 p.2) (zip mc t1);
  let df := setitem df "Charge_Velocity" cv in
  c ← getitem df "Contract";
  let df := setitem df "Is_Long_Term" (is_long_term <$> (c : list value)) in
  Ok df.

(** Insertion into a list sorted by [fle]. *)
Fixpoint insert_sorted (x : float) (l : list float) : list float :=
  match l with
  | [] => [x]
  | y :: l' => if fle x y then x :: l else y :: insert_sorted x l'
  end.

Definition sort_floats (l : list float) : list float := foldr insert_sorted [] l.

Definition notnan (f : float) : bool :=
  match f with
  | NaN => false
  | _ => true
  end.

(** The median of a list without NaN: the middle value of the sorted list,
    or the mean of the two middle values, whose sum can overflow; NaN for
    the empty list. *)
Definition median_floats (l : list float) : float :=
  let s := sort_floats l in
  let n := length s in
  match n with
  | O => NaN
  | _ =>
      if Nat.even n
      then fdiv (fadd64 (nth (n / 2 - 1) s NaN) (nth (n / 2) s NaN)) (Finite 2)
      else nth (n / 2) s NaN
  end%nat.

(** [Series.median()]: missing entries are skipped. *)
Definition series_median (col : list value) : result float :=
  xs ← map_cells to_float col;
  Ok (median_floats (filter (λ x, notnan x = true) xs)).

(** [Series.fillna(m)] *)
Definition fillna (m : float) (col : list value) : list value :=
  (λ v, if isna v then VFloat m else v) <$> col.

Section Pipeline.

(** The number parser of [pd.to_numeric]; NaN stands for a string that
    does not parse. *)
Variable parse_number : string → float.

(** [pd.to_numeric(col, errors='coerce')] on one cell. *)
Definition to_numeric (v : value) : value :=
  match v with
  | VStr s => VFloat (parse_number s)
  | _ => v
  end.

(** Lines 24-25: the cleaning of TotalCharges. *)
Definition clean_total_charges (df : DataFrame) : result DataFrame :=
  c ← getitem df "TotalCharges";
  let df := setitem df "TotalCharges" (to_numeric <$> (c : list value)) in
  c ← getitem df "TotalCharges";
  c' ← getitem df "TotalCharges";
  m ← series_median c';
  Ok (setitem df "TotalCharges" (fillna m c)).

(** [pd.read_csv]: the file system maps a path to the table read from it. *)
Definition read_csv (fs : gmap string DataFrame) (filepath : string)
  : result DataFrame :=
  match fs !! filepath with
  | Some df => Ok df
  | None => Raise FileNotFoundError
  end.

Definition process_data (fs : gmap string DataFrame) (filepath : string)
  : result DataFrame :=
  df ← read_csv fs filepath;
  df ← clean_total_charges df;
  engineer_features df.

End Pipeline.

(** ** generate_report: the aggregates *)

Definition fsum (xs : list float) : float := foldr fadd (Finite 0) xs.

(** [Series.mean()]: missing entries are skipped; NaN when nothing is left. *)
Definition series_mean (col : list value) : result float :=
  xs ← map_cells to_float col;
  let ys := filter (λ x, notnan x = true) xs in
  match ys with
  | [] => Ok NaN
  | _ => Ok (fdiv (fsum ys) (float_of_Z (Z.of_nat (length ys))))
  end.

(** [Series.sum()] of a boolean column: the number of [True] cells (a
    column has fewer than 2^63 rows, so the int64 sum does not wrap). *)
Definition sum_bool (l : list bool) : Z := foldr (λ b acc, Z_of_bool b + acc) 0 l.

Record report : Type := mkReport {
  churn_rate : float;
  avg_risk : float;
  high_risk_base : Z
}.

(** Lines 114-116. *)
Definition report_stats (df : DataFrame) : result report :=
  cn ← getitem df "Churn_Numeric";
  m ← series_mean cn;
  let churn_rate := fmul m (float_of_Z 100) in
  rs ← getitem df "Risk_Score";
  avg_risk ← series_mean rs;
  rs ← getitem df "Risk_Score";
  flags ← map_cells (ge_int 60) rs;
  Ok (mkReport churn_rate avg_risk (sum_bool flags)).

(** ** The console and the files written *)

(** One entry per call of [print]; the three f-strings of the report keep
    the number they format. *)
Inductive printed : Type :=
  | Text (s : string)
  | ChurnRateLine (x : float)
  | AvgRiskLine (x : float)
  | HighRiskLine (n : Z).

Record world : Type := mkWorld {
  console : list printed;
  saved : list string
}.

Definition print (p : printed) (w : world) : world :=
  mkWorld (console w ++ [p]) (saved w).

Definition savefig (name : string) (w : world) : world :=
  mkWorld (console w) (saved w ++ [name]).

Definition print_all (ps : list printed) (w : world) : world :=
  foldl (λ w p, print p w) w ps.

Fixpoint str_repeat (s : string) (n : nat) : string :=
  match n with
  | O => EmptyString
  | S n' => (s ++ str_repeat s n')%string
  end.

Definition newline : string := String (Ascii.ascii_of_nat 10) EmptyString.

(** [str.center]: the left margin gets the smaller half, except when the
    margin is odd and the width is odd. *)
Definition center (s : string) (width : nat) : string :=
  let len := String.length s in
  if (width <=? len)%nat then s
  else
    let marg := (width - len)%nat in
    let left := (marg / 2 + Nat.land (Nat.land marg width) 1)%nat in
    (str_repeat " " left ++ s ++ str_repeat " " (marg - left))%string.

Definition generate_report (df : DataFrame) (w : world) : result unit * world :=
  match report_stats df with
  | Raise e => (Raise e, w)
  | Ok r =>
      (Ok (),
       print_all
         [ Text (newline ++ str_repeat "█" 60);
           Text (center "  EXECUTIVE RETENTION REPORT (2026)" 60);
           Text (str_repeat "█" 60);
           ChurnRateLine (churn_rate r);
           AvgRiskLine (avg_risk r);
           HighRiskLine (high_risk_base r);
           Text (str_repeat "-" 60);
           Text "💡 KEY RETENTION DRIVERS:";
           Text "  1. SERVICE BUNDLING: Customers with 4+ services have <5% churn.";
           Text "  2. CONTRACT TYPE: Month-to-month contracts are 4.5x more likely to churn.";
           Text "  3. UPSELL OPPORTUNITY: Online Security is the strongest retention signal.";
           Text (str_repeat "-" 60);
           Text "🚀 ACTIONABLE STRATEGY:";
           Text "  - TARGET: Automate 'Security Service' trials for Fiber Optic users.";
           Text "  - OFFER: 3-month discount for switching from Monthly to 1-Year contracts.";
           Text (str_repeat "█" 60 ++ newline) ]%string
         w)
  end.

Inductive outcome : Type :=
  | Exit0
  | Uncaught (e : exn).

Definition missing_file_message : string :=
  "❌ ERROR: Please ensure 'telco_churn.csv' is in your project folder.".

(** The [except FileNotFoundError] clause applied to the result of the
    [try] block. *)
Definition handle (r : result unit * world) : outcome * world :=
  match r with
  | (Ok _, w) => (Exit0, w)
  | (Raise FileNotFoundError, w) => (Exit0, print (Text missing_file_message) w)
  | (Raise e, w) => (Uncaught e, w)
  end.

Section Program.

Variable parse_number : string → float.

(** The seaborn and matplotlib calls that draw the first four panels and
    the risk panel: they read the table and may raise. *)
Variable draw_panels : DataFrame → result unit.
Variable draw_risk_panel : DataFrame → result unit.

(** The table is mutated in place by [calculate_risk_scores]; the caller
    sees the mutated table, which is returned here. *)
Definition create_dashboard (df : DataFrame) (w : world)
  : result DataFrame * world :=
  match draw_panels df with
  | Raise e => (Raise e, w)
  | Ok _ =>
      match calculate_risk_scores df with
      | Raise e => (Raise e, w)
      | Ok df =>
          match draw_risk_panel df with
          | Raise e => (Raise e, w)
          | Ok _ => (Ok df, savefig "Churn_Dashboard_v2.png" w)
          end
      end
  end.

(** The body of the [try] block. *)
Definition pipeline (fs : gmap string DataFrame) (w : world)
  : result unit * world :=
  match process_data parse_number fs "telco_churn.csv" with
  | Raise e => (Raise e, w)
  | Ok data =>
      match create_dashboard data w with
      | (Raise e, w) => (Raise e, w)
      | (Ok data, w) => generate_report data w
      end
  end.

Definition main (fs : gmap string DataFrame) (w : world) : outcome * world :=
  handle (pipeline fs w).

End Program.

(** ** Specification-side definitions *)

(** The names of the columns derived by [engineer_features]. *)
Definition derived_columns : list string :=
  ["Churn_Numeric"; "Service_Count"; "Charge_Velocity"; "Is_Long_Term"].

(** [tenure < 12] on a numeric cell. *)
Definition tenure_below_12 (v : value) : bool :=
  match v with
  | VStr _ => false
  | VInt z => z <? 12
  | VFloat f => flt f (float_of_Z 12)
  end.

(** The four rule contributions of section 4.3 for one row. *)
Definition rule_contract (c : value) : Z := if eq_str "Month-to-month" c then 40 else 0.
Definition rule_internet (s : value) : Z := if eq_str "Fiber optic" s then 20 else 0.
Definition rule_support (t : value) : Z := if eq_str "No" t then 20 else 0.
Definition rule_tenure (n : value) : Z := if tenure_below_12 n then 20 else 0.

Definition rule_sum (c s t n : value) : Z :=
  rule_contract c + rule_internet s + rule_support t + rule_tenure n.

Definition is_string (v : value) : Prop := ∃ s, v = VStr s.

(** A column whose cells are numbers (or NaN), as [read_csv] produces for a
    numeric column. *)
Definition numeric_column (df : DataFrame) (k : string) : Prop :=
  ∃ c, columns df !! k = Some c ∧ Forall (λ v, ¬ is_string v) c.

Definition has_column (df : DataFrame) (k : string) : Prop :=
  is_Some (columns df !! k).

(** The Risk_Score column after the four masked additions, written as a
    function of the three string columns and the tenure mask. *)
Definition iadd_where (n : Z) (mask : list bool) (zs : list Z) : list Z :=
  zip_with (λ (b : bool) z, if b then add64 z n else z) mask zs.

Definition risk_column (n : nat) (cC cI cT : list value) (m : list bool) : list Z :=
  iadd_where 20 m
    (iadd_where 20 (eq_str "No" <$> cT)
       (iadd_where 20 (eq_str "Fiber optic" <$> cI)
          (iadd_where 40 (eq_str "Month-to-month" <$> cC) (replicate n 0)))).

#[export] Instance Q_eq_dec : EqDecision Q.
Proof. solve_decision. Defined.
#[export] Instance float_eq_dec : EqDecision float.
Proof. solve_decision. Defined.
#[export] Instance value_eq_dec : EqDecision value.
Proof. solve_decision. Defined.

(** The number of cells that are exactly the string "Yes". *)
Definition count_yes (cells : list value) : Z :=
  Z.of_nat (length (filter (λ v, v = VStr "Yes") cells)).

(** What [engineer_features] reads: the columns it indexes, with numeric
    MonthlyCharges and tenure. *)
Definition engineer_input (df : DataFrame) : Prop :=
  wf df ∧ has_column df "Churn" ∧ Forall (has_column df) services ∧
  numeric_column df "MonthlyCharges" ∧ numeric_column df "tenure" ∧
  has_column df "Contract".

(** The table returned by [engineer_features], as a function of the columns
    it read and of the Charge_Velocity column it computed. *)
Definition engineered (df : DataFrame) (cChurn : list value)
    (frame : list (list value)) (cv cContract : list value) : DataFrame :=
  setitem
    (setitem
       (setitem
          (setitem df "Churn_Numeric" (churn_map <$> cChurn))
          "Service_Count"
          (VInt <$> sum_axis1 (nrows df) (fmap (M:=list) (eq_str "Yes") <$> frame)))
       "Charge_Velocity" cv)
    "Is_Long_Term" (is_long_term <$> cContract).

(** ** A small table used to exercise the definitions *)

Definition VNum (q : Q) : value := VFloat (Finite q).

Definition sample_table : DataFrame :=
  mkDF 3 (list_to_map
    [ ("customerID", [VStr "0001-A"; VStr "0002-B"; VStr "0003-C"]);
      ("Contract", [VStr "Month-to-month"; VStr "Two year"; VStr "One year"]);
      ("InternetService", [VStr "Fiber optic"; VStr "DSL"; VStr "No"]);
      ("tenure", [VInt 3; VInt 48; VInt 0]);
      ("MonthlyCharges", [VNum (7035 # 100); VNum (2005 # 100); VNum (1995 # 100)]);
      ("TotalCharges", [VStr "29.85"; VStr " "; VStr "1840.75"]);
      ("Churn", [VStr "Yes"; VStr "No"; VStr "No"]);
      ("OnlineSecurity", [VStr "No"; VStr "Yes"; VStr "Yes"]);
      ("OnlineBackup", [VStr "No"; VStr "Yes"; VStr "Yes"]);
      ("DeviceProtection", [VStr "No"; VStr "Yes"; VStr "No"]);
      ("TechSupport", [VStr "No"; VStr "Yes"; VStr "No internet service"]);
      ("StreamingTV", [VStr "Yes"; VStr "Yes"; VStr "Yes"]);
      ("StreamingMovies", [VStr "No"; VStr "Yes"; VStr "No"]) ]).

(** A parser that knows the numerals of [sample_table]. *)
Definition sample_parse (s : string) : float :=
  if String.eqb s "29.85" then Finite (2985 # 100)
  else if String.eqb s "1840.75" then Finite (184075 # 100)
  else NaN.

(** [sample_table] after the feature-engineering step. *)
Definition engineered_sample : DataFrame :=
  match engineer_features sample_table with
  | Ok df => df
  | Raise _ => sample_table
  end.

(** The engineered [sample_table] after scoring. *)
Definition scored_sample : DataFrame :=
  match calculate_risk_scores engineered_sample with
  | Ok df => df
  | Raise _ => engineered_sample
  end.

(** A table whose last row carries the largest int64 tenure. *)
Definition max_tenure_table : DataFrame :=
  setitem sample_table "tenure" [VInt 3; VInt 48; VInt (2 ^ 63 - 1)].

(** The number a TotalCharges cell stands for under [pd.to_numeric]; NaN
    when it cannot be parsed or is missing. *)
Definition parsed (parse_number : string → float) (v : value) : float :=
  match v with
  | VStr s => parse_number s
  | VInt z => float_of_Z z
  | VFloat f => f
  end.

Definition is_finite (f : float) : Prop := ∃ q, f = Finite q.

(** The median of the successfully parsed values of a column. *)
Definition median_of_parsed (parse_number : string → float) (c : list value) : float :=
  median_floats (filter (λ x, notnan x = true) (parsed parse_number <$> c)).

(** [sample_table] with a TotalCharges column in which nothing parses. *)
Definition blank_charges_table : DataFrame :=
  setitem sample_table "TotalCharges" [VStr " "; VStr " "; VStr " "].

(** Equality of float64 values up to the representation of the rational. *)
Definition float_equiv (x y : float) : Prop :=
  match x, y with
  | Finite a, Finite b => (a == b)%Q
  | PInf, PInf | NInf, NInf | NaN, NaN => True
  | _, _ => False
  end.

(** The integers of a column, its missing cells left out. *)
Definition defined_ints (col : list value) : list Z :=
  omap (λ v, match v with VInt z => Some z | _ => None end) col.

Definition sum_Z (zs : list Z) : Z := foldr Z.add 0 zs.

(** The arithmetic mean of a list of integers; NaN for the empty list. *)
Definition mean_of (zs : list Z) : float :=
  match zs with
  | [] => NaN
  | _ => Finite (inject_Z (sum_Z zs) / inject_Z (Z.of_nat (length zs)))
  end.

(** The number of scores that are at least 60. *)
Definition count_high_risk (rs : list Z) : Z :=
  Z.of_nat (length (filter (λ z, 60 <= z) rs)).

(** The state of the console and of the output files before the program runs. *)
Definition initial_world : world := mkWorld [] [].

(** A cell of a column of integers with missing entries. *)
Definition int_or_missing (v : value) : Prop := (∃ z, v = VInt z) ∨ v = VFloat NaN.

(** The columns [calculate_risk_scores] indexes, in the order it reads them. *)
Definition scorer_columns : list string :=
  ["Contract"; "InternetService"; "TechSupport"; "tenure"].

(** A column that holds at least one string cell. *)
Definition has_string (df : DataFrame) (k : string) : Prop :=
  ∃ c, columns df !! k = Some c ∧ Exists is_string c.

(** [sample_table] without its Churn column. *)
Definition no_churn_table : DataFrame :=
  mkDF 3 (delete "Churn" (columns sample_table)).

(** [sample_table] without its OnlineBackup and StreamingTV columns. *)
Definition no_backup_tv_table : DataFrame :=
  mkDF 3 (delete "StreamingTV" (delete "OnlineBackup" (columns sample_table))).

(** [sample_table] with a tenure column read as text. *)
Definition text_tenure_table : DataFrame :=
  setitem sample_table "tenure" [VStr "three"; VInt 48; VInt 0].

(** A table with the columns of [sample_table] and no row. *)
Definition empty_table : DataFrame :=
  mkDF 0 ((λ _, []) <$> columns sample_table).

(** [sample_table] with tenure -1 in its rows and charges 70.35, 0, -19.95. *)
Definition negative_tenure_table : DataFrame :=
  setitem (setitem sample_table "tenure" [VInt (-1); VInt (-1); VInt (-1)])
          "MonthlyCharges" [VNum (7035 # 100); VNum 0; VNum (- (1995 # 100))].

(** A list of floats in ascending order of [fle]. *)
Fixpoint sorted_floats (l : list float) : Prop :=
  match l with
  | [] => True
  | x :: l' =>
      match l' with
      | [] => True
      | y :: _ => fle x y = true
      end ∧ sorted_floats l'
  end.

(** The finite numbers among the parsed values of a column. *)
Definition parsed_numbers (parse_number : string → float) (c : list value) : list Q :=
  omap (λ v, match parsed parse_number v with Finite q => Some q | _ => None end) c.

(** [empty_table] after the feature-engineering step and after scoring. *)
Definition engineered_empty : DataFrame :=
  match engineer_features empty_table with
  | Ok df => df
  | Raise _ => empty_table
  end.

Definition scored_empty : DataFrame :=
  match calculate_risk_scores engineered_empty with
  | Ok df => df
  | Raise _ => engineered_empty
  end.

(** [sample_table] without its InternetService column. *)
Definition no_internet_table : DataFrame :=
  mkDF 3 (delete "InternetService" (columns sample_table)).

(** Closes [k ∉ l] and [k ≠ k'] side conditions on concrete column names. *)
Ltac not_in_list :=
  let H := fresh in
  intros H;
  repeat (apply elem_of_cons in H as [H|H]; [discriminate H|]);
  by apply elem_of_nil in H.

(** ** Basic facts *)

Lemma wrap64_small z : int64_range z → wrap64 z = z.
Proof.
  unfold int64_range, wrap64. intros H.
  rewrite Z.mod_small by lia. lia.
Qed.

Lemma add64_small x y : int64_range (x + y) → add64 x y = x + y.
Proof. apply wrap64_small. Qed.

Lemma bind_Ok {A B} (f : A → result B) (a : A) : (Ok a ≫= f) = f a.
Proof. reflexivity. Qed.

Lemma bind_Ok_inv {A B} (f : A → result B) (m : result A) (b : B) :
  m ≫= f = Ok b → ∃ a, m = Ok a ∧ f a = Ok b.
Proof. destruct m as [a|e]; [eauto | discriminate]. Qed.

Lemma map_cells_pure {A B} (f : A → result B) (g : A → B) (l : list A) :
  Forall (λ x, f x = Ok (g x)) l → map_cells f l = Ok (g <$> l).
Proof.
  induction 1 as [|x l Hx _ IH]; [done|].
  cbn [map_cells]. rewrite Hx, IH. reflexivity.
Qed.

Lemma map_cells_fmap {A B C} (f : B → result C) (h : A → B) (l : list A) :
  map_cells f (h <$> l) = map_cells (λ x, f (h x)) l.
Proof. induction l as [|x l IH]; [done|]. cbn. by rewrite IH. Qed.

Lemma map_cells_lookup {A B} (f : A → result B) (l : list A) (l' : list B) :
  map_cells f l = Ok l' →
  length l' = length l ∧
  ∀ i x, l !! i = Some x → ∃ y, f x = Ok y ∧ l' !! i = Some y.
Proof.
  revert l'. induction l as [|x l IH]; intros l' H.
  - injection H as <-. split; [done|]. intros i x Hx. by rewrite lookup_nil in Hx.
  - cbn [map_cells] in H.
    apply bind_Ok_inv in H as (y & Hy & H).
    apply bind_Ok_inv in H as (ys & Hys & H).
    injection H as <-.
    destruct (IH _ Hys) as [Hlen Hlk].
    split; [cbn; by rewrite Hlen|].
    intros [|i] x' Hx'; cbn in *.
    + injection Hx' as <-. eauto.
    + eauto.
Qed.

Lemma map_cells_total {A B} (f : A → result B) (l : list A) :
  Forall (λ x, ∃ y, f x = Ok y) l → ∃ l', map_cells f l = Ok l'.
Proof.
  induction 1 as [|x l [y Hy] _ [ys IH]]; [by eexists|].
  exists (y :: ys). cbn [map_cells]. by rewrite Hy, IH.
Qed.

Lemma getitem_Some df k c : columns df !! k = Some c → getitem df k = Ok c.
Proof. unfold getitem. by intros ->. Qed.

Lemma getitem_Ok df k c : getitem df k = Ok c → columns df !! k = Some c.
Proof. unfold getitem. destruct (columns df !! k); [congruence | discriminate]. Qed.

Lemma getitems_present df ks :
  Forall (λ k, is_Some (columns df !! k)) ks →
  getitems df ks = map_cells (getitem df) ks.
Proof.
  intros H. unfold getitems.
  assert (filter (λ k, absent df k = true) ks = []) as ->; [|done].
  induction H as [|k ks [c Hk] _ IH]; [done|].
  rewrite filter_cons_False; [done|]. unfold absent. by rewrite Hk.
Qed.

Lemma getitems_Ok_inv df ks frame :
  getitems df ks = Ok frame → map_cells (getitem df) ks = Ok frame.
Proof. unfold getitems. by destruct (filter _ ks). Qed.

Lemma getitem_setitem_ne df k k' c :
  k ≠ k' → getitem (setitem df k c) k' = getitem df k'.
Proof. intros H. unfold getitem, setitem; cbn. by rewrite lookup_insert_ne. Qed.

Lemma getitem_setitem_eq df k c : getitem (setitem df k c) k = Ok c.
Proof. unfold getitem, setitem; cbn. by rewrite lookup_insert_eq. Qed.

Lemma setitem_setitem df k c c' : setitem (setitem df k c) k c' = setitem df k c'.
Proof. unfold setitem; cbn. by rewrite insert_insert_eq. Qed.

Lemma columns_setitem_ne df k k' c :
  k ≠ k' → columns (setitem df k c) !! k' = columns df !! k'.
Proof. intros H. cbn. by rewrite lookup_insert_ne. Qed.

Lemma nrows_setitem df k c : nrows (setitem df k c) = nrows df.
Proof. reflexivity. Qed.

Lemma wf_setitem df k c : wf df → length c = nrows df → wf (setitem df k c).
Proof.
  intros Hwf Hlen k' c'. cbn. rewrite lookup_insert.
  case_decide; [intros [= <-]; done | apply Hwf].
Qed.

Lemma cell_lookup df k c i :
  columns df !! k = Some c → cell df k i = c !! i.
Proof. unfold cell. by intros ->. Qed.

(** ** calculate_risk_scores in closed form *)

Lemma loc_iadd_ints df mask k n zs :
  columns df !! k = Some (VInt <$> zs) →
  loc_iadd df mask k n =
    Ok (setitem df k (VInt <$> iadd_where n mask zs)).
Proof.
  intros Hk. unfold loc_iadd. rewrite (getitem_Some _ _ _ Hk), bind_Ok.
  assert (map_cells (λ p : bool * value, if p.1 then add_int n p.2 else Ok p.2)
            (zip mask (VInt <$> zs))
          = Ok (VInt <$> iadd_where n mask zs)) as ->.
  { clear Hk. revert zs. induction mask as [|b mask IH]; intros [|z zs]; try done.
    cbn. rewrite IH. by destruct b. }
  reflexivity.
Qed.

Lemma calculate_risk_scores_eq df cC cI cT cN m :
  columns df !! "Contract" = Some cC →
  columns df !! "InternetService" = Some cI →
  columns df !! "TechSupport" = Some cT →
  columns df !! "tenure" = Some cN →
  map_cells (lt_int 12) cN = Ok m →
  calculate_risk_scores df = Ok (setitem df "Risk_Score" (VInt <$> risk_column (nrows df) cC cI cT m)).
Proof.
  intros HC HI HT HN Hm. unfold calculate_risk_scores, setitem_scalar.
  rewrite <- (fmap_replicate VInt).
  rewrite getitem_setitem_ne, (getitem_Some _ _ _ HC), bind_Ok by done.
  erewrite loc_iadd_ints by apply lookup_insert_eq.
  rewrite bind_Ok, setitem_setitem.
  rewrite getitem_setitem_ne, (getitem_Some _ _ _ HI), bind_Ok by done.
  erewrite loc_iadd_ints by apply lookup_insert_eq.
  rewrite bind_Ok, setitem_setitem.
  rewrite getitem_setitem_ne, (getitem_Some _ _ _ HT), bind_Ok by done.
  erewrite loc_iadd_ints by apply lookup_insert_eq.
  rewrite bind_Ok, setitem_setitem.
  rewrite getitem_setitem_ne, (getitem_Some _ _ _ HN), bind_Ok by done.
  rewrite Hm, bind_Ok.
  erewrite loc_iadd_ints by apply lookup_insert_eq.
  rewrite bind_Ok, setitem_setitem. reflexivity.
Qed.

Lemma eq_str_true s v : eq_str s v = true ↔ v = VStr s.
Proof.
  destruct v as [t| |]; cbn; try (split; discriminate).
  rewrite String.eqb_eq. split; congruence.
Qed.

Lemma eq_str_false s v : eq_str s v = false ↔ v ≠ VStr s.
Proof.
  rewrite <- eq_str_true. destruct (eq_str s v); split; congruence.
Qed.

Lemma lt_int_numeric v : ¬ is_string v → lt_int 12 v = Ok (tenure_below_12 v).
Proof. intros Hv. destruct v; [destruct Hv; by eexists | done..]. Qed.

Lemma lt_12_numeric (c : list value) :
  Forall (λ v, ¬ is_string v) c → map_cells (lt_int 12) c = Ok (tenure_below_12 <$> c).
Proof.
  intros H. apply map_cells_pure. eapply Forall_impl; [exact H|].
  intros v Hv. by apply lt_int_numeric.
Qed.

Lemma iadd_where_lookup n (mask : list bool) (zs : list Z) i (b : bool) (z : Z) :
  mask !! i = Some b → zs !! i = Some z →
  iadd_where n mask zs !! i = Some (if b then add64 z n else z).
Proof.
  intros Hb Hz. unfold iadd_where. rewrite lookup_zip_with, Hb, Hz. reflexivity.
Qed.

Lemma risk_column_lookup n (cC cI cT : list value) (m : list bool) i c s t (b : bool) :
  (i < n)%nat →
  cC !! i = Some c → cI !! i = Some s → cT !! i = Some t → m !! i = Some b →
  risk_column n cC cI cT m !! i =
    Some (rule_contract c + rule_internet s + rule_support t + (if b then 20 else 0)).
Proof.
  intros Hi Hc Hs Ht Hb. unfold risk_column.
  erewrite iadd_where_lookup; [| exact Hb |].
  2:{ erewrite iadd_where_lookup; [reflexivity | by rewrite list_lookup_fmap, Ht |].
      erewrite iadd_where_lookup; [reflexivity | by rewrite list_lookup_fmap, Hs |].
      erewrite iadd_where_lookup; [reflexivity | by rewrite list_lookup_fmap, Hc |].
      by apply lookup_replicate_2. }
  unfold rule_contract, rule_internet, rule_support.
  destruct (eq_str "Month-to-month" c), (eq_str "Fiber optic" s),
    (eq_str "No" t), b; reflexivity.
Qed.

Lemma rule_sum_range c s t n : rule_sum c s t n ∈ [0; 20; 40; 60; 80; 100].
Proof.
  unfold rule_sum, rule_contract, rule_internet, rule_support, rule_tenure.
  destruct (eq_str "Month-to-month" c), (eq_str "Fiber optic" s),
    (eq_str "No" t), (tenure_below_12 n); cbn; set_solver.
Qed.

Lemma wf_column_lookup df k c i :
  wf df → columns df !! k = Some c → (i < nrows df)%nat → ∃ v, c !! i = Some v.
Proof.
  intros Hwf Hk Hi. apply lookup_lt_is_Some_2. by rewrite (Hwf _ _ Hk).
Qed.

(** ** C1 *)

(** C1: on a table that has the four columns read by the scorer, with a
    numeric tenure column, [calculate_risk_scores] returns, and in every row
    Risk_Score is the sum of the four rule contributions (+40 Contract ==
    "Month-to-month", +20 InternetService == "Fiber optic", +20 TechSupport
    == "No", +20 tenure < 12); the score is one of 0, 20, 40, 60, 80, 100; a
    row matching all four rules scores 100 and a row matching none scores 0. *)
Theorem risk_score_is_rule_sum df :
  wf df →
  has_column df "Contract" → has_column df "InternetService" →
  has_column df "TechSupport" → numeric_column df "tenure" →
  ∃ df', calculate_risk_scores df = Ok df' ∧
    ∀ i, (i < nrows df)%nat →
      ∃ c s t n score,
        cell df "Contract" i = Some c ∧ cell df "InternetService" i = Some s ∧
        cell df "TechSupport" i = Some t ∧ cell df "tenure" i = Some n ∧
        cell df' "Risk_Score" i = Some (VInt score) ∧
        score = rule_contract c + rule_internet s + rule_support t + rule_tenure n ∧
        score ∈ [0; 20; 40; 60; 80; 100] ∧
        (c = VStr "Month-to-month" → s = VStr "Fiber optic" → t = VStr "No" →
         tenure_below_12 n = true → score = 100) ∧
        (c ≠ VStr "Month-to-month" → s ≠ VStr "Fiber optic" → t ≠ VStr "No" →
         tenure_below_12 n = false → score = 0).
Proof.
  intros Hwf [cC HC] [cI HI] [cT HT] (cN & HN & Hnum).
  pose proof (lt_12_numeric cN Hnum) as Hm.
  eexists. split; [by apply (calculate_risk_scores_eq df cC cI cT cN) |].
  intros i Hi.
  destruct (wf_column_lookup df _ _ i Hwf HC Hi) as [c Hc].
  destruct (wf_column_lookup df _ _ i Hwf HI Hi) as [s Hs].
  destruct (wf_column_lookup df _ _ i Hwf HT Hi) as [t Ht].
  destruct (wf_column_lookup df _ _ i Hwf HN Hi) as [n Hn].
  exists c, s, t, n, (rule_sum c s t n).
  rewrite (cell_lookup _ _ _ _ HC), (cell_lookup _ _ _ _ HI),
    (cell_lookup _ _ _ _ HT), (cell_lookup _ _ _ _ HN).
  split_and!; try done.
  - unfold cell, setitem; cbn. rewrite lookup_insert_eq; cbn.
    rewrite list_lookup_fmap.
    erewrite risk_column_lookup; [reflexivity | done..|].
    by rewrite list_lookup_fmap, Hn.
  - apply rule_sum_range.
  - intros -> -> -> Hlt. unfold rule_sum, rule_tenure. rewrite Hlt. reflexivity.
  - intros Hc' Hs' Ht' Hlt. unfold rule_sum, rule_contract, rule_internet, rule_support, rule_tenure.
    apply eq_str_false in Hc', Hs', Ht'. rewrite Hc', Hs', Ht', Hlt. reflexivity.
Qed.

Lemma wf_sample_table : wf sample_table.
Proof.
  apply (bool_decide_unpack
           (map_Forall (λ _ c, length c = nrows sample_table) (columns sample_table))).
  vm_compute. exact I.
Qed.

Lemma numeric_sample_tenure : numeric_column sample_table "tenure".
Proof.
  eexists. split; [reflexivity|]. repeat constructor; intros [s [=]].
Qed.

Lemma numeric_sample_charges : numeric_column sample_table "MonthlyCharges".
Proof.
  eexists. split; [reflexivity|]. repeat constructor; intros [s [=]].
Qed.

(** The first row of [sample_table] matches all four rules and scores 100. *)
Lemma risk_score_is_rule_sum_witness :
  ∃ df', calculate_risk_scores sample_table = Ok df' ∧
         cell df' "Risk_Score" 0 = Some (VInt 100).
Proof.
  destruct (risk_score_is_rule_sum sample_table wf_sample_table)
    as (df' & Hrun & Hrows).
  - by eexists.
  - by eexists.
  - by eexists.
  - exact numeric_sample_tenure.
  - exists df'. split; [exact Hrun|].
    destruct (Hrows 0%nat) as (c & s & t & n & score & Hc & Hs & Ht & Hn & Hcell & _ & _ & Hall & _).
    { cbn. lia. }
    rewrite Hcell. f_equal. f_equal.
    vm_compute in Hc, Hs, Ht, Hn.
    injection Hc as <-. injection Hs as <-. injection Ht as <-. injection Hn as <-.
    by apply Hall.
Defined.

(** ** engineer_features in closed form *)

Lemma engineer_features_eq df cChurn c1 c2 c3 c4 c5 c6 mc t t1 cv cContract :
  columns df !! "Churn" = Some cChurn →
  columns df !! "OnlineSecurity" = Some c1 →
  columns df !! "OnlineBackup" = Some c2 →
  columns df !! "DeviceProtection" = Some c3 →
  columns df !! "TechSupport" = Some c4 →
  columns df !! "StreamingTV" = Some c5 →
  columns df !! "StreamingMovies" = Some c6 →
  columns df !! "MonthlyCharges" = Some mc →
  columns df !! "tenure" = Some t →
  map_cells (add_int 1) t = Ok t1 →
  map_cells (λ p : value * value, truediv p.1 p.2) (zip mc t1) = Ok cv →
  columns df !! "Contract" = Some cContract →
  engineer_features df =
    Ok (engineered df cChurn [c1; c2; c3; c4; c5; c6] cv cContract).
Proof.
  intros HCh H1 H2 H3 H4 H5 H6 Hmc Ht Ht1 Hcv HCo.
  unfold engineer_features.
  rewrite (getitem_Some _ _ _ HCh), bind_Ok.
  rewrite getitems_present.
  2:{ unfold services.
      repeat (constructor; [eexists; rewrite columns_setitem_ne by done; eassumption|]).
      constructor. }
  unfold services. cbn [map_cells].
  rewrite !getitem_setitem_ne by done.
  rewrite (getitem_Some _ _ _ H1), (getitem_Some _ _ _ H2), (getitem_Some _ _ _ H3),
    (getitem_Some _ _ _ H4), (getitem_Some _ _ _ H5), (getitem_Some _ _ _ H6).
  rewrite !bind_Ok.
  rewrite !getitem_setitem_ne by done.
  rewrite (getitem_Some _ _ _ Hmc), bind_Ok, (getitem_Some _ _ _ Ht), bind_Ok.
  rewrite Ht1, bind_Ok, Hcv, bind_Ok.
  rewrite !getitem_setitem_ne by done.
  rewrite (getitem_Some _ _ _ HCo), bind_Ok.
  reflexivity.
Qed.

Lemma add_int_numeric k v : ¬ is_string v → ∃ y, add_int k v = Ok y ∧ ¬ is_string y.
Proof.
  intros Hv. destruct v as [s|z|f]; [destruct Hv; by eexists | |];
    (eexists; split; [reflexivity | intros [s [=]]]).
Qed.

Lemma truediv_numeric a b : ¬ is_string a → ¬ is_string b → ∃ y, truediv a b = Ok y.
Proof.
  intros Ha Hb.
  destruct a as [s| |]; [destruct Ha; by eexists | |];
    (destruct b as [s| |]; [destruct Hb; by eexists | |]); by eexists.
Qed.

Lemma map_cells_add_int k (c : list value) :
  Forall (λ v, ¬ is_string v) c →
  ∃ c', map_cells (add_int k) c = Ok c' ∧ Forall (λ v, ¬ is_string v) c'.
Proof.
  induction 1 as [|v c Hv _ (c' & Hc' & Hnum)]; [by exists []|].
  destruct (add_int_numeric k v Hv) as (y & Hy & Hy').
  exists (y :: c'). cbn [map_cells]. rewrite Hy, Hc'. split; [done | by constructor].
Qed.

Lemma map_cells_truediv (a b : list value) :
  Forall (λ v, ¬ is_string v) a → Forall (λ v, ¬ is_string v) b →
  ∃ c, map_cells (λ p : value * value, truediv p.1 p.2) (zip a b) = Ok c.
Proof.
  intros Ha. revert b. induction Ha as [|x a Hx _ IH]; intros b Hb; [by exists []|].
  destruct Hb as [|y b Hy Hb]; [by exists []|].
  destruct (truediv_numeric x y Hx Hy) as [z Hz], (IH b Hb) as [c Hc].
  exists (z :: c). cbn. cbn in Hz. rewrite Hz. cbn. by rewrite Hc.
Qed.

(** On its input domain [engineer_features] returns, and the result is the
    input with the four derived columns set. *)
Lemma engineer_features_total df :
  engineer_input df →
  ∃ cChurn c1 c2 c3 c4 c5 c6 mc t t1 cv cContract,
    columns df !! "Churn" = Some cChurn ∧
    columns df !! "OnlineSecurity" = Some c1 ∧
    columns df !! "OnlineBackup" = Some c2 ∧
    columns df !! "DeviceProtection" = Some c3 ∧
    columns df !! "TechSupport" = Some c4 ∧
    columns df !! "StreamingTV" = Some c5 ∧
    columns df !! "StreamingMovies" = Some c6 ∧
    columns df !! "MonthlyCharges" = Some mc ∧
    columns df !! "tenure" = Some t ∧
    map_cells (add_int 1) t = Ok t1 ∧
    map_cells (λ p : value * value, truediv p.1 p.2) (zip mc t1) = Ok cv ∧
    columns df !! "Contract" = Some cContract ∧
    engineer_features df =
      Ok (engineered df cChurn [c1; c2; c3; c4; c5; c6] cv cContract).
Proof.
  intros (Hwf & [cChurn HCh] & Hserv & (mc & Hmc & Hmcn) & (t & Ht & Htn) & [cContract HCo]).
  unfold services in Hserv.
  repeat (apply Forall_cons in Hserv as [[? ?] Hserv]).
  destruct (map_cells_add_int 1 t Htn) as (t1 & Ht1 & Ht1n).
  destruct (map_cells_truediv mc t1 Hmcn Ht1n) as [cv Hcv].
  do 12 eexists. split_and!; try eassumption.
  by eapply engineer_features_eq.
Qed.

Lemma engineer_features_inv df df' :
  engineer_features df = Ok df' →
  ∃ cChurn c1 c2 c3 c4 c5 c6 mc t t1 cv cContract,
    columns df !! "Churn" = Some cChurn ∧
    columns df !! "OnlineSecurity" = Some c1 ∧
    columns df !! "OnlineBackup" = Some c2 ∧
    columns df !! "DeviceProtection" = Some c3 ∧
    columns df !! "TechSupport" = Some c4 ∧
    columns df !! "StreamingTV" = Some c5 ∧
    columns df !! "StreamingMovies" = Some c6 ∧
    columns df !! "MonthlyCharges" = Some mc ∧
    columns df !! "tenure" = Some t ∧
    map_cells (add_int 1) t = Ok t1 ∧
    map_cells (λ p : value * value, truediv p.1 p.2) (zip mc t1) = Ok cv ∧
    columns df !! "Contract" = Some cContract ∧
    df' = engineered df cChurn [c1; c2; c3; c4; c5; c6] cv cContract.
Proof.
  unfold engineer_features. intros H.
  apply bind_Ok_inv in H as (cChurn & HCh & H).
  apply bind_Ok_inv in H as (frame & Hframe & H).
  apply getitems_Ok_inv in Hframe.
  unfold services in Hframe. cbn [map_cells] in Hframe.
  rewrite !getitem_setitem_ne in Hframe by done.
  apply bind_Ok_inv in Hframe as (c1 & H1 & Hframe).
  apply bind_Ok_inv in Hframe as (? & Hframe & [= <-]).
  apply bind_Ok_inv in Hframe as (c2 & H2 & Hframe).
  apply bind_Ok_inv in Hframe as (? & Hframe & [= <-]).
  apply bind_Ok_inv in Hframe as (c3 & H3 & Hframe).
  apply bind_Ok_inv in Hframe as (? & Hframe & [= <-]).
  apply bind_Ok_inv in Hframe as (c4 & H4 & Hframe).
  apply bind_Ok_inv in Hframe as (? & Hframe & [= <-]).
  apply bind_Ok_inv in Hframe as (c5 & H5 & Hframe).
  apply bind_Ok_inv in Hframe as (? & Hframe & [= <-]).
  apply bind_Ok_inv in Hframe as (c6 & H6 & Hframe).
  apply bind_Ok_inv in Hframe as (? & [= <-] & [= <-]).
  apply bind_Ok_inv in H as (mc & Hmc & H).
  apply bind_Ok_inv in H as (t & Ht & H).
  apply bind_Ok_inv in H as (t1 & Ht1 & H).
  apply bind_Ok_inv in H as (cv & Hcv & H).
  apply bind_Ok_inv in H as (cContract & HCo & [= <-]).
  rewrite !getitem_setitem_ne in Hmc by done.
  rewrite !getitem_setitem_ne in Ht by done.
  rewrite !getitem_setitem_ne in HCo by done.
  apply getitem_Ok in HCh, H1, H2, H3, H4, H5, H6, Hmc, Ht, HCo.
  exists cChurn, c1, c2, c3, c4, c5, c6, mc, t, t1, cv, cContract.
  split_and!; done.
Qed.

Lemma columns_engineered_other df cChurn frame cv cContract k :
  k ∉ derived_columns →
  columns (engineered df cChurn frame cv cContract) !! k = columns df !! k.
Proof.
  intros Hk. unfold engineered, setitem; cbn.
  unfold derived_columns in Hk.
  rewrite !lookup_insert_ne; [done | set_solver..].
Qed.

Lemma columns_engineered_churn df cChurn frame cv cContract :
  columns (engineered df cChurn frame cv cContract) !! "Churn_Numeric"
  = Some (churn_map <$> cChurn).
Proof.
  unfold engineered, setitem; cbn.
  rewrite !lookup_insert_ne by done. apply lookup_insert_eq.
Qed.

Lemma columns_engineered_count df cChurn frame cv cContract :
  columns (engineered df cChurn frame cv cContract) !! "Service_Count"
  = Some (VInt <$> sum_axis1 (nrows df) (fmap (M:=list) (eq_str "Yes") <$> frame)).
Proof.
  unfold engineered, setitem; cbn.
  rewrite !lookup_insert_ne by done. apply lookup_insert_eq.
Qed.

Lemma columns_engineered_velocity df cChurn frame cv cContract :
  columns (engineered df cChurn frame cv cContract) !! "Charge_Velocity" = Some cv.
Proof.
  unfold engineered, setitem; cbn.
  rewrite !lookup_insert_ne by done. apply lookup_insert_eq.
Qed.

Lemma columns_engineered_long_term df cChurn frame cv cContract :
  columns (engineered df cChurn frame cv cContract) !! "Is_Long_Term"
  = Some (is_long_term <$> cContract).
Proof. unfold engineered, setitem; cbn. apply lookup_insert_eq. Qed.

Lemma setitem_id df k c : columns df !! k = Some c → setitem df k c = df.
Proof.
  intros H. destruct df as [n cols]. unfold setitem; cbn in *.
  f_equal. by apply insert_id.
Qed.

(** ** C7 *)

(** C7: the feature-engineering step only sets the four derived columns:
    whenever it returns, the row count is unchanged and every column whose
    name is not one of Churn_Numeric, Service_Count, Charge_Velocity and
    Is_Long_Term is in the output exactly as it was in the input. *)
Theorem engineer_preserves_original_columns df df' :
  engineer_features df = Ok df' →
  nrows df' = nrows df ∧
  ∀ k, k ∉ derived_columns → columns df' !! k = columns df !! k.
Proof.
  intros H.
  apply engineer_features_inv in H
    as (cChurn & c1 & c2 & c3 & c4 & c5 & c6 & mc & t & t1 & cv & cContract & H).
  destruct H as (_ & _ & _ & _ & _ & _ & _ & _ & _ & _ & _ & _ & ->).
  split; [reflexivity|].
  intros k Hk. by apply columns_engineered_other.
Qed.

(** ** C9 *)

(** C9: the feature-engineering step is idempotent: applied to its own
    output it returns that output again, so the derived columns of the
    second application are those of the first. *)
Theorem engineer_features_idempotent df df' :
  engineer_features df = Ok df' → engineer_features df' = Ok df'.
Proof.
  intros H.
  apply engineer_features_inv in H
    as (cChurn & c1 & c2 & c3 & c4 & c5 & c6 & mc & t & t1 & cv & cContract & H).
  destruct H as (HCh & H1 & H2 & H3 & H4 & H5 & H6 & Hmc & Ht & Ht1 & Hcv & HCo & ->).
  set (df' := engineered df cChurn [c1; c2; c3; c4; c5; c6] cv cContract).
  assert (∀ k, k ∉ derived_columns → columns df' !! k = columns df !! k) as Hfr
    by (intros k Hk; by apply columns_engineered_other).
  assert (∀ k c, k ∉ derived_columns → columns df !! k = Some c →
                 columns df' !! k = Some c) as Hsame
    by (intros k c Hk Hc; by rewrite Hfr).
  rewrite (engineer_features_eq df' cChurn c1 c2 c3 c4 c5 c6 mc t t1 cv cContract);
    try assumption; try (apply Hsame; [by not_in_list | assumption]).
  f_equal. unfold engineered at 1.
  rewrite (setitem_id df' "Churn_Numeric")
    by apply columns_engineered_churn.
  change (nrows df') with (nrows df).
  rewrite (setitem_id df' "Service_Count")
    by apply columns_engineered_count.
  rewrite (setitem_id df' "Charge_Velocity")
    by apply columns_engineered_velocity.
  apply setitem_id, columns_engineered_long_term.
Qed.

Lemma engineered_sample_eq : engineer_features sample_table = Ok engineered_sample.
Proof. vm_compute. reflexivity. Qed.

(** On [sample_table] the step returns, keeps the three rows and leaves the
    tenure column as it was. *)
Lemma engineer_preserves_original_columns_witness :
  engineer_features sample_table = Ok engineered_sample ∧
  nrows engineered_sample = 3%nat ∧
  columns engineered_sample !! "tenure" = Some [VInt 3; VInt 48; VInt 0].
Proof.
  split; [exact engineered_sample_eq|].
  destruct (engineer_preserves_original_columns sample_table engineered_sample
              engineered_sample_eq) as [Hn Hcols].
  split; [exact Hn|].
  rewrite Hcols; [reflexivity | by not_in_list].
Defined.

(** A second application to the engineered [sample_table] returns it unchanged. *)
Lemma engineer_features_idempotent_witness :
  engineer_features sample_table = Ok engineered_sample ∧
  engineer_features engineered_sample = Ok engineered_sample.
Proof.
  split; [exact engineered_sample_eq|].
  exact (engineer_features_idempotent sample_table engineered_sample engineered_sample_eq).
Defined.

(** ** Service_Count *)

Lemma sum_axis1_lookup n (frame : list (list bool)) i (bs : list bool) :
  (i < n)%nat →
  Forall2 (λ (col : list bool) b, col !! i = Some b) frame bs →
  sum_axis1 n frame !! i = Some (foldr (λ b acc, add64 (Z_of_bool b) acc) 0 bs).
Proof.
  intros Hi. induction 1 as [|col b frame bs Hb _ IH]; cbn.
  - by apply lookup_replicate_2.
  - unfold sum_axis1 in IH. rewrite lookup_zip_with, Hb; cbn. by rewrite IH.
Qed.

Lemma sum_bool_bounds bs : 0 <= sum_bool bs <= Z.of_nat (length bs).
Proof.
  induction bs as [|b bs IH]; [cbn; lia|].
  change (sum_bool (b :: bs)) with (Z_of_bool b + sum_bool bs).
  cbn [length]. destruct b; cbn [Z_of_bool]; lia.
Qed.

Lemma sum_bits_no_wrap bs :
  Z.of_nat (length bs) < 2 ^ 63 →
  foldr (λ b acc, add64 (Z_of_bool b) acc) 0 bs = sum_bool bs.
Proof.
  induction bs as [|b bs IH]; [done|].
  intros Hlen. cbn [foldr length] in *. rewrite IH by lia.
  change (sum_bool (b :: bs)) with (Z_of_bool b + sum_bool bs).
  apply add64_small. unfold int64_range.
  pose proof (sum_bool_bounds bs). destruct b; cbn [Z_of_bool]; lia.
Qed.

Lemma count_yes_sum_bool cells : count_yes cells = sum_bool (eq_str "Yes" <$> cells).
Proof.
  unfold count_yes. induction cells as [|v cells IH]; [done|].
  rewrite fmap_cons, filter_cons.
  change (sum_bool (eq_str "Yes" v :: (eq_str "Yes" <$> cells)))
    with (Z_of_bool (eq_str "Yes" v) + sum_bool (eq_str "Yes" <$> cells)).
  rewrite <- IH. case_decide as Hv.
  - apply eq_str_true in Hv as ->. cbn [length Z_of_bool]. lia.
  - apply eq_str_false in Hv as ->. cbn [Z_of_bool]. lia.
Qed.

(** ** C3 *)

(** C3: on its input domain the feature-engineering step returns, and in
    every row Service_Count is the number of the six add-on cells
    (OnlineSecurity, OnlineBackup, DeviceProtection, TechSupport,
    StreamingTV, StreamingMovies) that are exactly the string "Yes"; any
    other cell, "No" and "No internet service" included, is not counted, and
    the count lies between 0 and 6. *)
Theorem service_count_counts_yes df :
  engineer_input df →
  ∃ df', engineer_features df = Ok df' ∧
    ∀ i, (i < nrows df)%nat →
      ∃ cells,
        Forall2 (λ k v, cell df k i = Some v) services cells ∧
        cell df' "Service_Count" i = Some (VInt (count_yes cells)) ∧
        count_yes cells = Z.of_nat (length (filter (λ v, v = VStr "Yes") cells)) ∧
        0 <= count_yes cells <= 6.
Proof.
  intros Hin. pose proof Hin as (Hwf & _).
  destruct (engineer_features_total df Hin)
    as (cChurn & c1 & c2 & c3 & c4 & c5 & c6 & mc & t & t1 & cv & cContract & H).
  destruct H as (HCh & H1 & H2 & H3 & H4 & H5 & H6 & Hmc & Ht & Ht1 & Hcv & HCo & Hrun).
  eexists. split; [exact Hrun|].
  intros i Hi.
  destruct (wf_column_lookup df _ _ i Hwf H1 Hi) as [v1 Hv1].
  destruct (wf_column_lookup df _ _ i Hwf H2 Hi) as [v2 Hv2].
  destruct (wf_column_lookup df _ _ i Hwf H3 Hi) as [v3 Hv3].
  destruct (wf_column_lookup df _ _ i Hwf H4 Hi) as [v4 Hv4].
  destruct (wf_column_lookup df _ _ i Hwf H5 Hi) as [v5 Hv5].
  destruct (wf_column_lookup df _ _ i Hwf H6 Hi) as [v6 Hv6].
  exists [v1; v2; v3; v4; v5; v6].
  split_and!.
  - unfold services. repeat constructor; by erewrite cell_lookup.
  - erewrite cell_lookup by apply columns_engineered_count.
    rewrite list_lookup_fmap.
    erewrite (sum_axis1_lookup _ _ i (eq_str "Yes" <$> [v1; v2; v3; v4; v5; v6]) Hi).
    + rewrite sum_bits_no_wrap by (rewrite length_fmap; done).
      by rewrite count_yes_sum_bool.
    + cbn. repeat constructor; by rewrite list_lookup_fmap, ?Hv1, ?Hv2, ?Hv3, ?Hv4, ?Hv5, ?Hv6.
  - reflexivity.
  - rewrite count_yes_sum_bool. apply sum_bool_bounds.
  - rewrite count_yes_sum_bool.
    pose proof (sum_bool_bounds (eq_str "Yes" <$> [v1; v2; v3; v4; v5; v6])) as Hb.
    rewrite length_fmap in Hb. cbn [length] in Hb. lia.
Qed.

Lemma engineer_input_sample : engineer_input sample_table.
Proof.
  split_and!.
  - exact wf_sample_table.
  - by eexists.
  - unfold services. repeat constructor; by eexists.
  - exact numeric_sample_charges.
  - exact numeric_sample_tenure.
  - by eexists.
Qed.

(** The third row of [sample_table] has the add-on cells Yes, Yes, No,
    No internet service, Yes, No and gets Service_Count 3. *)
Lemma service_count_counts_yes_witness :
  ∃ df', engineer_features sample_table = Ok df' ∧
         cell df' "Service_Count" 2 = Some (VInt 3).
Proof.
  destruct (service_count_counts_yes sample_table engineer_input_sample)
    as (df' & Hrun & Hrows).
  exists df'. split; [exact Hrun|].
  destruct (Hrows 2%nat) as (cells & Hcells & Hcount & _); [cbn; lia|].
  rewrite Hcount. unfold services in Hcells.
  repeat match goal with
         | H : Forall2 _ (_ :: _) _ |- _ =>
             apply Forall2_cons_inv_l in H as (? & ? & H0 & H & ->);
             vm_compute in H0; injection H0 as <-
         | H : Forall2 _ [] _ |- _ => apply Forall2_nil_inv_l in H as ->
         end.
  reflexivity.
Defined.

(** ** C4 *)

Lemma churn_map_yes : churn_map (VStr "Yes") = VInt 1.
Proof. reflexivity. Qed.

Lemma churn_map_no : churn_map (VStr "No") = VInt 0.
Proof. reflexivity. Qed.

Lemma churn_map_other v : v ≠ VStr "Yes" → v ≠ VStr "No" → churn_map v = VFloat NaN.
Proof.
  intros Hy Hn. unfold churn_map.
  apply eq_str_false in Hy, Hn. by rewrite Hy, Hn.
Qed.

(** C4: on its input domain the feature-engineering step returns, and in
    every row Churn_Numeric is 1 when the churn label is "Yes", 0 when it is
    "No", and the missing marker NaN for any other label; so for a "Yes" or
    "No" label it is 0 or 1 and matches the label. *)
Theorem churn_numeric_matches_label df :
  engineer_input df →
  ∃ df', engineer_features df = Ok df' ∧
    ∀ i, (i < nrows df)%nat →
      ∃ label cn,
        cell df "Churn" i = Some label ∧
        cell df' "Churn_Numeric" i = Some cn ∧
        (label = VStr "Yes" → cn = VInt 1) ∧
        (label = VStr "No" → cn = VInt 0) ∧
        (label ≠ VStr "Yes" → label ≠ VStr "No" → cn = VFloat NaN) ∧
        (label = VStr "Yes" ∨ label = VStr "No" →
         (cn = VInt 0 ∨ cn = VInt 1) ∧ (cn = VInt 1 ↔ label = VStr "Yes")).
Proof.
  intros Hin. pose proof Hin as (Hwf & _).
  destruct (engineer_features_total df Hin)
    as (cChurn & c1 & c2 & c3 & c4 & c5 & c6 & mc & t & t1 & cv & cContract & H).
  destruct H as (HCh & _ & _ & _ & _ & _ & _ & _ & _ & _ & _ & _ & Hrun).
  eexists. split; [exact Hrun|].
  intros i Hi.
  destruct (wf_column_lookup df _ _ i Hwf HCh Hi) as [label Hlabel].
  exists label, (churn_map label).
  split_and!.
  - by erewrite cell_lookup.
  - erewrite cell_lookup by apply columns_engineered_churn.
    by rewrite list_lookup_fmap, Hlabel.
  - by intros ->.
  - by intros ->.
  - apply churn_map_other.
  - intros [-> | ->]; cbn; split; [by right | done | by left | ].
    split; discriminate.
Qed.

(** The first row of [sample_table] is labelled "Yes" and the second "No". *)
Lemma churn_numeric_matches_label_witness :
  ∃ df', engineer_features sample_table = Ok df' ∧
         cell df' "Churn_Numeric" 0 = Some (VInt 1) ∧
         cell df' "Churn_Numeric" 1 = Some (VInt 0).
Proof.
  destruct (churn_numeric_matches_label sample_table engineer_input_sample)
    as (df' & Hrun & Hrows).
  exists df'. split; [exact Hrun|]. split.
  - destruct (Hrows 0%nat) as (label & cn & Hl & Hcn & Hyes & _); [cbn; lia|].
    rewrite Hcn. f_equal. apply Hyes.
    vm_compute in Hl. by injection Hl as <-.
  - destruct (Hrows 1%nat) as (label & cn & Hl & Hcn & _ & Hno & _); [cbn; lia|].
    rewrite Hcn. f_equal. apply Hno.
    vm_compute in Hl. by injection Hl as <-.
Defined.

(** ** Charge_Velocity *)

Lemma Qzero_inject_Z d : d ≠ 0 → Qzero (inject_Z d) = false.
Proof.
  intros Hd. unfold Qzero. apply not_true_is_false. intros H.
  apply Qeq_bool_iff in H. unfold Qeq in H. cbn in H. lia.
Qed.

Lemma add64_succ_nonzero t : 0 <= t < 2 ^ 63 → add64 t 1 ≠ 0.
Proof.
  intros Ht. unfold add64, wrap64.
  destruct (decide (t = 2 ^ 63 - 1)) as [->|Hne]; [by vm_compute|].
  rewrite Z.mod_small by lia. lia.
Qed.

Lemma add64_succ t : 0 <= t < 2 ^ 63 - 1 → add64 t 1 = t + 1.
Proof. intros Ht. apply add64_small. unfold int64_range. lia. Qed.

Lemma zip_lookup {A B} (l : list A) (k : list B) i x y :
  l !! i = Some x → k !! i = Some y → zip l k !! i = Some (x, y).
Proof. intros Hx Hy. by rewrite lookup_zip_with, Hx, Hy. Qed.

(** The Charge_Velocity cell of a row is the quotient of its MonthlyCharges
    cell by its tenure cell plus one. *)
Lemma charge_velocity_row df :
  engineer_input df →
  ∃ df', engineer_features df = Ok df' ∧
    ∀ i tn m,
      cell df "tenure" i = Some tn → cell df "MonthlyCharges" i = Some m →
      ∃ y z, add_int 1 tn = Ok y ∧ truediv m y = Ok z ∧
             cell df' "Charge_Velocity" i = Some z.
Proof.
  intros Hin.
  destruct (engineer_features_total df Hin)
    as (cChurn & c1 & c2 & c3 & c4 & c5 & c6 & mc & t & t1 & cv & cContract & H).
  destruct H as (_ & _ & _ & _ & _ & _ & _ & Hmc & Ht & Ht1 & Hcv & _ & Hrun).
  eexists. split; [exact Hrun|].
  intros i tn m Htn Hm.
  rewrite (cell_lookup _ _ _ _ Ht) in Htn. rewrite (cell_lookup _ _ _ _ Hmc) in Hm.
  destruct (map_cells_lookup _ _ _ Ht1) as [_ Hlk1].
  destruct (Hlk1 i _ Htn) as (y & Hy & Hyi).
  destruct (map_cells_lookup _ _ _ Hcv) as [_ Hlk2].
  destruct (Hlk2 i _ (zip_lookup _ _ _ _ _ Hm Hyi)) as (z & Hz & Hzi).
  exists y, z. split_and!; [done | done |].
  by erewrite cell_lookup by apply columns_engineered_velocity.
Qed.

Lemma Qzero_succ t : (0 <= t)%Q → Qzero (t + inject_Z 1) = false.
Proof.
  intros Ht. unfold Qzero. apply not_true_is_false. intros H.
  apply Qeq_bool_iff in H.
  assert (0 < t + inject_Z 1)%Q as Hpos.
  { apply Qlt_le_trans with (0 + inject_Z 1)%Q; [reflexivity|].
    apply Qplus_le_l, Ht. }
  rewrite H in Hpos. by apply Qlt_irrefl in Hpos.
Qed.

(** ** C6 *)

(** C6 (amended): on its input domain the feature-engineering step returns.
    In every row whose tenure is a non-negative int64 the divisor, tenure + 1
    in 64-bit arithmetic, is not zero, and it is tenure + 1 when
    tenure < 2^63 - 1; Charge_Velocity is the monthly charge divided by that
    divisor, a finite number when the charge is finite (never the infinity
    or NaN of a zero divisor).  The same holds, with divisor tenure + 1, in a
    row whose tenure is a non-negative float. *)
Theorem charge_velocity_defined df :
  engineer_input df →
  ∃ df', engineer_features df = Ok df' ∧
    ∀ i tn m x,
      cell df "tenure" i = Some tn → cell df "MonthlyCharges" i = Some m →
      to_float m = Ok x →
      (∀ t, tn = VInt t → 0 <= t < 2 ^ 63 →
         add64 t 1 ≠ 0 ∧
         (t < 2 ^ 63 - 1 → add64 t 1 = t + 1) ∧
         cell df' "Charge_Velocity" i
           = Some (VFloat (fdiv x (float_of_Z (add64 t 1)))) ∧
         ∀ q, x = Finite q →
           cell df' "Charge_Velocity" i = Some (VNum (q / inject_Z (add64 t 1)))) ∧
      (∀ t, tn = VFloat (Finite t) → (0 <= t)%Q →
         ¬ (t + inject_Z 1 == 0)%Q ∧
         cell df' "Charge_Velocity" i
           = Some (VFloat (fdiv x (Finite (t + inject_Z 1)))) ∧
         ∀ q, x = Finite q →
           cell df' "Charge_Velocity" i = Some (VNum (q / (t + inject_Z 1)))).
Proof.
  intros Hin.
  destruct (charge_velocity_row df Hin) as (df' & Hrun & Hrows).
  exists df'. split; [exact Hrun|].
  intros i tn m x Htn Hm Hx.
  destruct (Hrows i tn m Htn Hm) as (y & z & Hy & Hz & Hcell).
  unfold truediv in Hz. rewrite Hx, bind_Ok in Hz.
  split.
  - intros t -> Hrange. cbn in Hy. injection Hy as <-.
    cbn in Hz. injection Hz as <-.
    pose proof (add64_succ_nonzero t Hrange) as Hnz.
    split_and!; [done | intros; apply add64_succ; lia | done |].
    intros q ->. rewrite Hcell. cbn [fdiv float_of_Z].
    by rewrite Qzero_inject_Z.
  - intros t -> Hpos. cbn in Hy. injection Hy as <-.
    cbn in Hz. injection Hz as <-.
    pose proof (Qzero_succ t Hpos) as Hnz.
    split_and!; [| done |].
    + intros H. apply Qeq_bool_iff in H. unfold Qzero in Hnz. congruence.
    + intros q ->. rewrite Hcell. cbn [fdiv]. by rewrite Hnz.
Qed.

(** In the first row of [sample_table], tenure 3 and charge 70.35 give
    Charge_Velocity 70.35 / 4. *)
Lemma charge_velocity_defined_witness :
  ∃ df', engineer_features sample_table = Ok df' ∧
         cell df' "Charge_Velocity" 0 = Some (VNum ((7035 # 100) / inject_Z (3 + 1))).
Proof.
  destruct (charge_velocity_defined sample_table engineer_input_sample)
    as (df' & Hrun & Hrows).
  exists df'. split; [exact Hrun|].
  destruct (Hrows 0%nat (VInt 3) (VNum (7035 # 100)) (Finite (7035 # 100)))
    as [Hint _]; [reflexivity..|].
  destruct (Hint 3 eq_refl) as (_ & _ & _ & Hcell); [lia|].
  by apply Hcell.
Defined.

Lemma engineer_input_max_tenure : engineer_input max_tenure_table.
Proof.
  split_and!.
  - apply wf_setitem; [exact wf_sample_table | reflexivity].
  - by eexists.
  - unfold services. repeat constructor; by eexists.
  - eexists. split; [reflexivity|]. repeat constructor; intros [s [=]].
  - eexists. split; [reflexivity|]. repeat constructor; intros [s [=]].
  - by eexists.
Qed.

(** C6, as stated, fails: a row whose tenure is the non-negative integer
    2^63 - 1 and whose monthly charge is 19.95 gets a negative
    Charge_Velocity, 19.95 / (-2^63), not 19.95 / (tenure + 1). *)
Lemma charge_velocity_wraps_at_max_tenure :
  ∃ df' q,
    engineer_features max_tenure_table = Ok df' ∧
    cell max_tenure_table "tenure" 2 = Some (VInt (2 ^ 63 - 1)) ∧
    cell max_tenure_table "MonthlyCharges" 2 = Some (VNum (1995 # 100)) ∧
    cell df' "Charge_Velocity" 2 = Some (VNum q) ∧
    (q < 0)%Q ∧
    ¬ (q == (1995 # 100) / inject_Z (2 ^ 63 - 1 + 1))%Q.
Proof.
  destruct (charge_velocity_row max_tenure_table engineer_input_max_tenure)
    as (df' & Hrun & Hrows).
  exists df', ((1995 # 100) / inject_Z (- 2 ^ 63))%Q.
  split; [exact Hrun|].
  split_and!; [reflexivity | reflexivity | | by vm_compute |].
  - destruct (Hrows 2%nat (VInt (2 ^ 63 - 1)) (VNum (1995 # 100)))
      as (y & z & Hy & Hz & Hcell); [reflexivity..|].
    injection Hy as <-. injection Hz as <-. exact Hcell.
  - intros H. vm_compute in H. discriminate H.
Qed.

(** ** C10 *)

Lemma calculate_risk_scores_inv df df' :
  calculate_risk_scores df = Ok df' →
  ∃ cC cI cT cN m,
    columns df !! "Contract" = Some cC ∧
    columns df !! "InternetService" = Some cI ∧
    columns df !! "TechSupport" = Some cT ∧
    columns df !! "tenure" = Some cN ∧
    map_cells (lt_int 12) cN = Ok m ∧
    df' = setitem df "Risk_Score" (VInt <$> risk_column (nrows df) cC cI cT m).
Proof.
  intros H. pose proof H as H0. unfold calculate_risk_scores, setitem_scalar in H.
  rewrite <- (fmap_replicate VInt) in H.
  rewrite getitem_setitem_ne in H by done.
  apply bind_Ok_inv in H as (cC & HC & H).
  erewrite loc_iadd_ints in H by apply lookup_insert_eq.
  rewrite bind_Ok, setitem_setitem, getitem_setitem_ne in H by done.
  apply bind_Ok_inv in H as (cI & HI & H).
  erewrite loc_iadd_ints in H by apply lookup_insert_eq.
  rewrite bind_Ok, setitem_setitem, getitem_setitem_ne in H by done.
  apply bind_Ok_inv in H as (cT & HT & H).
  erewrite loc_iadd_ints in H by apply lookup_insert_eq.
  rewrite bind_Ok, setitem_setitem, getitem_setitem_ne in H by done.
  apply bind_Ok_inv in H as (cN & HN & H).
  apply bind_Ok_inv in H as (m & Hm & _).
  apply getitem_Ok in HC, HI, HT, HN.
  exists cC, cI, cT, cN, m. split_and!; try done.
  rewrite (calculate_risk_scores_eq df cC cI cT cN m) in H0 by done.
  by injection H0.
Qed.

(** The scorer starts from [df['Risk_Score'] = 0]: a Risk_Score column that
    is already there has no influence on the result. *)
Lemma calculate_risk_scores_overwrites df c :
  calculate_risk_scores (setitem df "Risk_Score" c) = calculate_risk_scores df.
Proof.
  unfold calculate_risk_scores, setitem_scalar.
  by rewrite setitem_setitem, nrows_setitem.
Qed.

Lemma calculate_risk_scores_twice df df' :
  calculate_risk_scores df = Ok df' → calculate_risk_scores df' = Ok df'.
Proof.
  intros H.
  destruct (calculate_risk_scores_inv _ _ H) as (cC & cI & cT & cN & m & Hinv).
  destruct Hinv as (_ & _ & _ & _ & _ & ->).
  by rewrite calculate_risk_scores_overwrites.
Qed.

(** C10: [calculate_risk_scores] sets Risk_Score to 0 in every row before it
    applies the four rules, so an earlier Risk_Score column does not change
    the result, and applying the scorer to its own output returns that
    output again: scores do not accumulate over invocations. *)
Theorem calculate_risk_scores_idempotent df df' :
  calculate_risk_scores df = Ok df' →
  calculate_risk_scores df' = Ok df' ∧
  ∀ c, calculate_risk_scores (setitem df "Risk_Score" c) = Ok df'.
Proof.
  intros H. split.
  - by apply (calculate_risk_scores_twice df).
  - intros c. by rewrite calculate_risk_scores_overwrites.
Qed.

(** The scorer call inside [create_dashboard] leaves an already scored
    table as it is. *)
Lemma create_dashboard_rescoring draw_panels draw_risk_panel df0 df w :
  calculate_risk_scores df0 = Ok df →
  draw_panels df = Ok () → draw_risk_panel df = Ok () →
  create_dashboard draw_panels draw_risk_panel df w
    = (Ok df, savefig "Churn_Dashboard_v2.png" w).
Proof.
  intros Hscore Hd1 Hd2. unfold create_dashboard.
  by rewrite Hd1, (calculate_risk_scores_twice df0 df Hscore), Hd2.
Qed.

Lemma scored_sample_eq : calculate_risk_scores engineered_sample = Ok scored_sample.
Proof. vm_compute. reflexivity. Qed.

(** Scoring the scored [sample_table] again changes nothing. *)
Lemma calculate_risk_scores_idempotent_witness :
  calculate_risk_scores engineered_sample = Ok scored_sample ∧
  calculate_risk_scores scored_sample = Ok scored_sample.
Proof.
  split; [exact scored_sample_eq|].
  exact (proj1 (calculate_risk_scores_idempotent engineered_sample scored_sample
                  scored_sample_eq)).
Defined.

(** ** The cleaning of TotalCharges *)

Section Cleaning.

Variable parse_number : string → float.

Lemma to_float_to_numeric v :
  to_float (to_numeric parse_number v) = Ok (parsed parse_number v).
Proof. by destruct v. Qed.

Lemma series_median_to_numeric (c : list value) :
  series_median (to_numeric parse_number <$> c) = Ok (median_of_parsed parse_number c).
Proof.
  unfold series_median, median_of_parsed.
  rewrite map_cells_fmap.
  rewrite (map_cells_pure _ (parsed parse_number)); [done|].
  apply Forall_forall. intros v _. apply to_float_to_numeric.
Qed.

Lemma clean_total_charges_eq df c :
  columns df !! "TotalCharges" = Some c →
  clean_total_charges parse_number df =
    Ok (setitem df "TotalCharges"
          (fillna (median_of_parsed parse_number c) (to_numeric parse_number <$> c))).
Proof.
  intros Hc. unfold clean_total_charges.
  rewrite (getitem_Some _ _ _ Hc), bind_Ok.
  rewrite getitem_setitem_eq, !bind_Ok.
  rewrite series_median_to_numeric, bind_Ok.
  by rewrite setitem_setitem.
Qed.

Lemma isna_to_numeric v :
  isna (to_numeric parse_number v) = negb (notnan (parsed parse_number v)).
Proof.
  destruct v as [s|z|f]; cbn; [by destruct (parse_number s) | done | by destruct f].
Qed.

End Cleaning.

(** ** The median *)

Lemma insert_sorted_Forall (P : float → Prop) x l :
  P x → Forall P l → Forall P (insert_sorted x l).
Proof.
  intros Hx. induction 1 as [|y l Hy Hl IH]; cbn; [by repeat constructor|].
  destruct (fle x y); repeat constructor; done.
Qed.

Lemma sort_floats_Forall (P : float → Prop) l : Forall P l → Forall P (sort_floats l).
Proof.
  induction 1 as [|x l Hx _ IH]; [constructor|].
  by apply insert_sorted_Forall.
Qed.

Lemma insert_sorted_length x l : length (insert_sorted x l) = S (length l).
Proof. induction l as [|y l IH]; cbn; [done|]. destruct (fle x y); cbn; by rewrite ?IH. Qed.

Lemma sort_floats_length l : length (sort_floats l) = length l.
Proof.
  induction l as [|x l IH]; [done|].
  change (sort_floats (x :: l)) with (insert_sorted x (sort_floats l)).
  by rewrite insert_sorted_length, IH.
Qed.

Lemma nth_Forall (P : float → Prop) (l : list float) i d :
  Forall P l → (i < length l)%nat → P (nth i l d).
Proof.
  intros Hl. revert i. induction Hl as [|x l Hx _ IH]; intros [|i] Hi; cbn in *;
    [lia | lia | done | apply IH; lia].
Qed.

Lemma fdiv_two q : fdiv (Finite q) (Finite 2) = Finite (q / 2).
Proof. reflexivity. Qed.

(** The float64 sum of two finite values: an infinity when the exact sum
    reaches the overflow threshold, the exact sum otherwise. *)
Lemma fadd64_finite a b :
  (fadd64 (Finite a) (Finite b) = PInf ∧ (float64_overflow <= a + b)%Q) ∨
  (fadd64 (Finite a) (Finite b) = NInf ∧ (a + b <= - float64_overflow)%Q) ∨
  (fadd64 (Finite a) (Finite b) = Finite (a + b) ∧
   (- float64_overflow < a + b < float64_overflow)%Q).
Proof.
  unfold fadd64. cbn [fadd overflow64].
  destruct (Qle_bool float64_overflow (a + b)) eqn:Hhi.
  { left. split; [done | by apply Qle_bool_iff]. }
  destruct (Qle_bool (a + b) (- float64_overflow)) eqn:Hlo.
  { right; left. split; [done | by apply Qle_bool_iff]. }
  right; right. split; [done|]. split; apply Qnot_le_lt; intros H;
    apply Qle_bool_iff in H; congruence.
Qed.

Lemma mean_of_two_defined a b :
  fdiv (fadd64 (Finite a) (Finite b)) (Finite 2) ≠ NaN.
Proof.
  destruct (fadd64_finite a b) as [[-> _] | [[-> _] | [-> _]]]; [done | done |].
  by rewrite fdiv_two.
Qed.

(** The median of a nonempty list of finite values is not NaN. *)
Lemma median_floats_defined l :
  l ≠ [] → Forall is_finite l → median_floats l ≠ NaN.
Proof.
  intros Hne Hfin. unfold median_floats.
  pose proof (sort_floats_Forall _ _ Hfin) as Hs.
  pose proof (sort_floats_length l) as Hlen.
  destruct (length (sort_floats l)) as [|n] eqn:Hn.
  { destruct l; [done | discriminate]. }
  assert ((S n / 2 < length (sort_floats l))%nat) as H1.
  { rewrite Hn. apply Nat.div_lt; lia. }
  assert ((S n / 2 - 1 < length (sort_floats l))%nat) as H2 by lia.
  destruct (Nat.even (S n)).
  - destruct (nth_Forall _ _ _ NaN Hs H2) as [a ->].
    destruct (nth_Forall _ _ _ NaN Hs H1) as [b ->].
    apply mean_of_two_defined.
  - by destruct (nth_Forall _ _ _ NaN Hs H1) as [a ->].
Qed.

(** Two values of 1e308 have the median +inf: their sum is past the float64
    range. *)
Lemma median_floats_overflows :
  median_floats [Finite (inject_Z (10 ^ 308)); Finite (inject_Z (10 ^ 308))] = PInf.
Proof. by vm_compute. Qed.

Lemma fillna_lookup m (c : list value) i v :
  c !! i = Some v → fillna m c !! i = Some (if isna v then VFloat m else v).
Proof. intros H. unfold fillna. by rewrite list_lookup_fmap, H. Qed.

Lemma median_of_parsed_defined parse (c : list value) :
  (∃ v, v ∈ c ∧ is_finite (parsed parse v)) →
  Forall (λ v, parsed parse v = NaN ∨ is_finite (parsed parse v)) c →
  median_of_parsed parse c ≠ NaN.
Proof.
  intros (v & Hv & q & Hq) Hall. unfold median_of_parsed.
  apply median_floats_defined.
  - intros Hnil.
    assert (parsed parse v ∈ filter (λ x, notnan x = true) (parsed parse <$> c)) as Hin.
    { apply list_elem_of_filter. split; [by rewrite Hq | by apply list_elem_of_fmap_2]. }
    rewrite Hnil in Hin. by apply elem_of_nil in Hin.
  - apply Forall_forall. intros x Hx.
    apply list_elem_of_filter in Hx as [Hnn Hx].
    apply list_elem_of_fmap in Hx as (w & -> & Hw).
    rewrite Forall_forall in Hall. destruct (Hall w Hw) as [Hnan|Hfin]; [|done].
    by rewrite Hnan in Hnn.
Qed.

(** ** C2 *)

(** C2 (amended): on a table with a TotalCharges column the cleaning step
    returns; every cell that cannot be parsed as a number (or is missing)
    is replaced by the median of the successfully parsed values of the
    column, a median that skips the missing entries; every valid numeric
    cell is unchanged and every string that parses becomes its number; the
    cleaned column has no missing value provided that median is not NaN,
    which is the case when at least one value parses and the parsed values
    are finite (the median is then a number or, when the sum of the two
    middle values overflows, an infinity). *)
Theorem total_charges_cleaned parse df (c : list value) :
  columns df !! "TotalCharges" = Some c →
  ∃ df', clean_total_charges parse df = Ok df' ∧
    (∀ i v, c !! i = Some v → parsed parse v = NaN →
       cell df' "TotalCharges" i = Some (VFloat (median_of_parsed parse c))) ∧
    (∀ i v, c !! i = Some v → ¬ is_string v → isna v = false →
       cell df' "TotalCharges" i = Some v) ∧
    (∀ i s, c !! i = Some (VStr s) → parse s ≠ NaN →
       cell df' "TotalCharges" i = Some (VFloat (parse s))) ∧
    (median_of_parsed parse c ≠ NaN →
       ∀ i v', cell df' "TotalCharges" i = Some v' → isna v' = false) ∧
    ((∃ v, v ∈ c ∧ is_finite (parsed parse v)) →
     Forall (λ v, parsed parse v = NaN ∨ is_finite (parsed parse v)) c →
     median_of_parsed parse c ≠ NaN).
Proof.
  intros Hc. eexists. split; [by apply clean_total_charges_eq|].
  assert (∀ i v, c !! i = Some v →
            cell (setitem df "TotalCharges"
                    (fillna (median_of_parsed parse c) (to_numeric parse <$> c)))
              "TotalCharges" i
            = Some (if notnan (parsed parse v) then to_numeric parse v
                    else VFloat (median_of_parsed parse c))) as Hcell.
  { intros i v Hv. erewrite cell_lookup by apply lookup_insert_eq.
    erewrite fillna_lookup by (by rewrite list_lookup_fmap, Hv).
    rewrite isna_to_numeric. by destruct (notnan (parsed parse v)). }
  split_and!.
  - intros i v Hv Hnan. by rewrite (Hcell i v Hv), Hnan.
  - intros i v Hv Hnum Hna. rewrite (Hcell i v Hv).
    destruct v as [s|z|f]; [destruct Hnum; by eexists | done | by destruct f].
  - intros i s Hv Hnn. rewrite (Hcell i _ Hv). cbn.
    by destruct (parse s).
  - intros Hmed i v' Hv'.
    erewrite cell_lookup in Hv' by apply lookup_insert_eq.
    unfold fillna in Hv'. rewrite list_lookup_fmap in Hv'.
    destruct ((to_numeric parse <$> c) !! i) as [w|]; [|discriminate].
    injection Hv' as <-. destruct (isna w) eqn:Hw; [|done].
    cbn. by destruct (median_of_parsed parse c).
  - apply median_of_parsed_defined.
Qed.

(** In [sample_table] the column is "29.85", " ", "1840.75": the blank
    becomes the median 935.30 and the two numbers stay. *)
Lemma total_charges_cleaned_witness :
  ∃ df' q,
    clean_total_charges sample_parse sample_table = Ok df' ∧
    cell df' "TotalCharges" 0 = Some (VNum (2985 # 100)) ∧
    cell df' "TotalCharges" 1 = Some (VNum q) ∧ (q == 93530 # 100)%Q ∧
    cell df' "TotalCharges" 2 = Some (VNum (184075 # 100)).
Proof.
  destruct (total_charges_cleaned sample_parse sample_table
              [VStr "29.85"; VStr " "; VStr "1840.75"] eq_refl)
    as (df' & Hrun & Hmissing & _ & Hparsed & _).
  exists df', (((2985 # 100) + (184075 # 100)) / 2)%Q.
  split; [exact Hrun|]. split_and!.
  - by apply (Hparsed 0%nat "29.85"%string).
  - by apply (Hmissing 1%nat (VStr " ")).
  - reflexivity.
  - by apply (Hparsed 2%nat "1840.75"%string).
Defined.

(** C2, as stated, fails: when no value of the column parses, the median is
    NaN and the cleaned column still holds missing values. *)
Lemma total_charges_all_blank_stay_missing :
  ∃ df',
    clean_total_charges sample_parse blank_charges_table = Ok df' ∧
    cell blank_charges_table "TotalCharges" 0 = Some (VStr " ") ∧
    cell df' "TotalCharges" 0 = Some (VFloat NaN) ∧
    isna (VFloat NaN) = true.
Proof.
  eexists. split; [by apply (clean_total_charges_eq _ _ [VStr " "; VStr " "; VStr " "])|].
  split_and!; reflexivity.
Qed.

(** ** The frame of process_data *)

Lemma clean_total_charges_inv parse df df' :
  clean_total_charges parse df = Ok df' →
  ∃ c, columns df !! "TotalCharges" = Some c ∧
       df' = setitem df "TotalCharges"
               (fillna (median_of_parsed parse c) (to_numeric parse <$> c)).
Proof.
  intros H. pose proof H as H0. unfold clean_total_charges in H.
  apply bind_Ok_inv in H as (c & Hc & _). apply getitem_Ok in Hc.
  exists c. split; [done|].
  rewrite (clean_total_charges_eq parse df c Hc) in H0. by injection H0.
Qed.

(** X23: from the file to the table returned by [process_data] only
    TotalCharges and the four derived columns are assigned: the row count
    and every other column are those of the table read from the file. *)
Lemma process_data_preserves_columns parse (fs : gmap string DataFrame) path df' :
  process_data parse fs path = Ok df' →
  ∃ df0, fs !! path = Some df0 ∧ nrows df' = nrows df0 ∧
    ∀ k, k ≠ "TotalCharges" → k ∉ derived_columns →
         columns df' !! k = columns df0 !! k.
Proof.
  unfold process_data, read_csv. intros H.
  destruct (fs !! path) as [df0|]; [|discriminate].
  rewrite bind_Ok in H.
  apply bind_Ok_inv in H as (df1 & Hclean & Heng).
  apply clean_total_charges_inv in Hclean as (c & _ & ->).
  apply engineer_features_inv in Heng
    as (cChurn & c1 & c2 & c3 & c4 & c5 & c6 & mc & t & t1 & cv & cContract & H).
  destruct H as (_ & _ & _ & _ & _ & _ & _ & _ & _ & _ & _ & _ & ->).
  exists df0. split_and!; [done | done |].
  intros k Hk Hd. rewrite columns_engineered_other by done.
  by rewrite columns_setitem_ne.
Qed.

(** ** C5 *)

(** C5: when no file is at the configured path, [main] prints exactly one
    line, the missing-file message, writes no file and exits normally; the
    handler turns only [FileNotFoundError] into that message, and every
    other exception raised in the [try] block leaves [main] uncaught. *)
Theorem missing_input_file parse draw_panels draw_risk_panel
    (fs : gmap string DataFrame) w :
  fs !! "telco_churn.csv" = None →
  main parse draw_panels draw_risk_panel fs w
    = (Exit0, print (Text missing_file_message) w) ∧
  console (print (Text missing_file_message) w)
    = console w ++ [Text missing_file_message] ∧
  saved (print (Text missing_file_message) w) = saved w ∧
  (∀ e w', e ≠ FileNotFoundError → handle (Raise e, w') = (Uncaught e, w')).
Proof.
  intros Hfs. split_and!.
  - unfold main, pipeline, process_data, read_csv. by rewrite Hfs.
  - reflexivity.
  - reflexivity.
  - intros e w' He. by destruct e.
Qed.

(** With an empty file system and an empty console the run ends normally
    with the one message on the console and no file written, while a
    [KeyError] would not be caught. *)
Lemma missing_input_file_witness :
  main sample_parse (λ _, Ok ()) (λ _, Ok ()) ∅ initial_world
    = (Exit0, mkWorld [Text missing_file_message] []) ∧
  handle (Raise (KeyError "Churn"), initial_world)
    = (Uncaught (KeyError "Churn"), initial_world).
Proof.
  destruct (missing_input_file sample_parse (λ _, Ok ()) (λ _, Ok ()) ∅ initial_world)
    as (Hmain & _ & _ & Hother).
  - apply lookup_empty.
  - split; [exact Hmain | by apply Hother].
Defined.

(** ** The aggregates of the report *)

Lemma float_equiv_refl x : float_equiv x x.
Proof. destruct x; cbn; [reflexivity | done..]. Qed.

Lemma fsum_ints (zs : list Z) : float_equiv (fsum (float_of_Z <$> zs)) (Finite (inject_Z (sum_Z zs))).
Proof.
  induction zs as [|z zs IH]; [cbn; reflexivity|].
  cbn [fmap list_fmap fsum foldr sum_Z] in *. fold (fsum (float_of_Z <$> zs)).
  fold (sum_Z zs).
  destruct (fsum (float_of_Z <$> zs)) as [q| | |]; cbn in IH; try done.
  cbn. rewrite IH, inject_Z_plus. reflexivity.
Qed.

Lemma filter_notnan_ints (zs : list Z) :
  filter (λ x, notnan x = true) (float_of_Z <$> zs) = float_of_Z <$> zs.
Proof.
  induction zs as [|z zs IH]; [done|].
  rewrite fmap_cons, filter_cons_True by done. by rewrite IH.
Qed.

Lemma series_mean_ints (col : list value) :
  Forall int_or_missing col →
  ∃ m, series_mean col = Ok m ∧ float_equiv m (mean_of (defined_ints col)).
Proof.
  intros Hcol. unfold series_mean.
  assert (∃ xs, map_cells to_float col = Ok xs ∧
                filter (λ x, notnan x = true) xs = float_of_Z <$> defined_ints col)
    as (xs & -> & Hxs).
  { induction Hcol as [|v col Hv _ (xs & Hxs & Hf)]; [by exists []|].
    destruct Hv as [[z ->] | ->].
    - exists (float_of_Z z :: xs). cbn [map_cells to_float]. rewrite Hxs. split; [done|].
      rewrite filter_cons_True by done. cbn. by rewrite Hf.
    - exists (NaN :: xs). cbn [map_cells to_float]. rewrite Hxs. split; [done|].
      rewrite filter_cons_False by done. by rewrite Hf. }
  rewrite bind_Ok, Hxs.
  destruct (defined_ints col) as [|z zs] eqn:Hd; [by exists NaN|].
  eexists. split; [reflexivity|].
  rewrite length_fmap.
  pose proof (fsum_ints (z :: zs)) as Hsum.
  destruct (fsum (float_of_Z <$> z :: zs)) as [q| | |]; cbn in Hsum; try done.
  unfold mean_of, float_of_Z, fdiv.
  rewrite Qzero_inject_Z by (cbn [length]; lia).
  cbn. by rewrite Hsum.
Qed.

Lemma ge_60_ints (rs : list Z) : map_cells (ge_int 60) (VInt <$> rs) = Ok ((λ z, 60 <=? z) <$> rs).
Proof.
  rewrite map_cells_fmap. by apply map_cells_pure, Forall_forall.
Qed.

Lemma sum_bool_count (rs : list Z) : sum_bool ((λ z, 60 <=? z) <$> rs) = count_high_risk rs.
Proof.
  unfold count_high_risk. induction rs as [|z rs IH]; [done|].
  rewrite fmap_cons, filter_cons.
  change (sum_bool ((60 <=? z) :: ((λ z, 60 <=? z) <$> rs)))
    with (Z_of_bool (60 <=? z) + sum_bool ((λ z, 60 <=? z) <$> rs)).
  rewrite IH. case_decide as Hz.
  - apply Z.leb_le in Hz as ->. cbn [length Z_of_bool]. lia.
  - apply Z.leb_nle in Hz as ->. cbn [Z_of_bool]. lia.
Qed.

Lemma churn_map_int_or_missing v : int_or_missing (churn_map v).
Proof.
  unfold churn_map, int_or_missing.
  destruct (eq_str "Yes" v); [left; by eexists|].
  destruct (eq_str "No" v); [left; by eexists | by right].
Qed.

Lemma fmul_100_equiv x y :
  float_equiv x y → float_equiv (fmul x (float_of_Z 100)) (fmul y (float_of_Z 100)).
Proof.
  destruct x as [a| | |], y as [b| | |]; cbn; try done.
  intros ->. reflexivity.
Qed.

(** ** C8 *)

(** C8: on an engineered and scored table [report_stats] returns; the churn
    rate is the mean of the Churn_Numeric column (over its defined entries,
    NaN when there is none) times 100, the average risk is the mean of the
    Risk_Score column, and the high-risk count is the number of rows whose
    Risk_Score is at least 60. *)
Theorem report_aggregates df0 df1 df2 :
  engineer_features df0 = Ok df1 →
  calculate_risk_scores df1 = Ok df2 →
  ∃ cn rs r,
    columns df2 !! "Churn_Numeric" = Some cn ∧
    columns df2 !! "Risk_Score" = Some (VInt <$> rs) ∧
    report_stats df2 = Ok r ∧
    float_equiv (churn_rate r) (fmul (mean_of (defined_ints cn)) (float_of_Z 100)) ∧
    float_equiv (avg_risk r) (mean_of rs) ∧
    high_risk_base r = count_high_risk rs.
Proof.
  intros Heng Hscore.
  apply engineer_features_inv in Heng
    as (cChurn & c1 & c2 & c3 & c4 & c5 & c6 & mc & t & t1 & cv & cContract & H).
  destruct H as (_ & _ & _ & _ & _ & _ & _ & _ & _ & _ & _ & _ & ->).
  apply calculate_risk_scores_inv in Hscore as (cC & cI & cT & cN & m & H).
  destruct H as (_ & _ & _ & _ & _ & ->).
  set (df1 := engineered df0 cChurn [c1; c2; c3; c4; c5; c6] cv cContract).
  set (rs := risk_column (nrows df1) cC cI cT m).
  assert (columns (setitem df1 "Risk_Score" (VInt <$> rs)) !! "Churn_Numeric"
          = Some (churn_map <$> cChurn)) as Hcn.
  { rewrite columns_setitem_ne by done. apply columns_engineered_churn. }
  assert (columns (setitem df1 "Risk_Score" (VInt <$> rs)) !! "Risk_Score"
          = Some (VInt <$> rs)) as Hrs by apply lookup_insert_eq.
  destruct (series_mean_ints (churn_map <$> cChurn)) as (mc' & Hmc & Hmc').
  { apply Forall_fmap, Forall_forall. intros v _. apply churn_map_int_or_missing. }
  destruct (series_mean_ints (VInt <$> rs)) as (mr & Hmr & Hmr').
  { apply Forall_fmap, Forall_forall. intros z _. left. by eexists. }
  assert (defined_ints (VInt <$> rs) = rs) as Hdef.
  { clear. induction rs as [|z rs IH]; [done|]. cbn. unfold defined_ints in IH. by rewrite IH. }
  rewrite Hdef in Hmr'.
  exists (churn_map <$> cChurn), rs, (mkReport (fmul mc' (float_of_Z 100)) mr (count_high_risk rs)).
  split_and!; try done.
  - unfold report_stats.
    rewrite (getitem_Some _ _ _ Hcn), (getitem_Some _ _ _ Hrs).
    rewrite ?bind_Ok, Hmc, ?bind_Ok, Hmr, ?bind_Ok, ge_60_ints, ?bind_Ok.
    by rewrite sum_bool_count.
  - by apply fmul_100_equiv.
Qed.

Lemma scored_sample_churn :
  columns scored_sample !! "Churn_Numeric" = Some [VInt 1; VInt 0; VInt 0].
Proof. vm_compute. reflexivity. Qed.

Lemma scored_sample_risk :
  columns scored_sample !! "Risk_Score" = Some [VInt 100; VInt 0; VInt 20].
Proof. vm_compute. reflexivity. Qed.

(** On the engineered and scored [sample_table] (labels Yes, No, No; scores
    100, 0, 20) the churn rate is 100/3, the average risk 40 and one row is
    high risk. *)
Lemma report_aggregates_witness :
  ∃ r, report_stats scored_sample = Ok r ∧
       float_equiv (churn_rate r) (Finite (100 # 3)) ∧
       float_equiv (avg_risk r) (Finite 40) ∧
       high_risk_base r = 1.
Proof.
  destruct (report_aggregates sample_table engineered_sample scored_sample
              engineered_sample_eq scored_sample_eq)
    as (cn & rs & r & Hcn & Hrs & Hrun & Hchurn & Havg & Hhigh).
  exists r. split; [exact Hrun|].
  assert (cn = [VInt 1; VInt 0; VInt 0]) as ->.
  { rewrite scored_sample_churn in Hcn. by injection Hcn. }
  assert (rs = [100; 0; 20]) as ->.
  { rewrite scored_sample_risk in Hrs.
    destruct rs as [|a [|b [|c [|d rs]]]]; try discriminate Hrs.
    by injection Hrs as <- <- <-. }
  split_and!.
  - destruct (churn_rate r) as [q| | |]; [|exact Hchurn..].
    cbn [float_equiv].
    transitivity (inject_Z (sum_Z [1; 0; 0]%Z) / inject_Z (Z.of_nat 3) * inject_Z 100)%Q;
      [exact Hchurn | by vm_compute].
  - destruct (avg_risk r) as [q| | |]; [|exact Havg..].
    cbn [float_equiv].
    transitivity (inject_Z (sum_Z [100; 0; 20]%Z) / inject_Z (Z.of_nat 3))%Q;
      [exact Havg | by vm_compute].
  - exact Hhigh.
Defined.

(** When every churn label is "Yes" or "No" the Churn_Numeric column has no
    missing entry: its mean runs over all rows and its sum is the number of
    "Yes" labels. *)
Lemma churn_numeric_all_defined (c : list value) :
  Forall (λ v, v = VStr "Yes" ∨ v = VStr "No") c →
  length (defined_ints (churn_map <$> c)) = length c ∧
  sum_Z (defined_ints (churn_map <$> c)) = count_yes c.
Proof.
  unfold count_yes.
  induction 1 as [|v c Hv _ [IHlen IHsum]]; [done|].
  rewrite filter_cons.
  destruct Hv as [-> | ->].
  - change (defined_ints (churn_map <$> VStr "Yes" :: c))
      with (1 :: defined_ints (churn_map <$> c)).
    change (sum_Z (1 :: defined_ints (churn_map <$> c)))
      with (1 + sum_Z (defined_ints (churn_map <$> c))).
    rewrite decide_True by done. cbn [length]. rewrite IHlen, IHsum. split; [done | lia].
  - change (defined_ints (churn_map <$> VStr "No" :: c))
      with (0 :: defined_ints (churn_map <$> c)).
    change (sum_Z (0 :: defined_ints (churn_map <$> c)))
      with (0 + sum_Z (defined_ints (churn_map <$> c))).
    rewrite decide_False by done. cbn [length]. rewrite IHlen, IHsum. split; [done | lia].
Qed.

(** ** The scenarios of the test plan *)

Example scenario_all_rules :
  rule_sum (VStr "Month-to-month") (VStr "Fiber optic") (VStr "No") (VInt 3) = 100.
Proof. reflexivity. Qed.

Example scenario_no_rule :
  rule_sum (VStr "Two year") (VStr "DSL") (VStr "Yes") (VInt 48) = 0.
Proof. reflexivity. Qed.

Example scenario_service_count :
  count_yes [VStr "Yes"; VStr "Yes"; VStr "No"; VStr "No internet service";
             VStr "Yes"; VStr "No"] = 3.
Proof. reflexivity. Qed.

Example scenario_median :
  float_equiv (median_floats [Finite (2985 # 100); Finite (184075 # 100)])
              (Finite (93530 # 100)).
Proof. reflexivity. Qed.

Example scenario_sample_scores :
  cell scored_sample "Risk_Score" <$> [0; 1; 2]%nat
  = [Some (VInt 100); Some (VInt 0); Some (VInt 20)].
Proof. vm_compute. reflexivity. Qed.

Example scenario_sample_long_term :
  columns engineered_sample !! "Is_Long_Term" = Some [VInt 0; VInt 1; VInt 1].
Proof. vm_compute. reflexivity. Qed.

Example scenario_banner :
  String.length (center "  EXECUTIVE RETENTION REPORT (2026)" 60) = 60%nat.
Proof. reflexivity. Qed.

Example scenario_median_odd :
  median_floats [Finite 3; Finite 1; Finite 2] = Finite 2.
Proof. reflexivity. Qed.

(** With the file in place and drawing calls that succeed, the run ends
    normally, writes the dashboard and prints the sixteen lines of the report. *)
Example scenario_full_run :
  let '(o, w) := main sample_parse (λ _, Ok ()) (λ _, Ok ())
                      {["telco_churn.csv" := sample_table]} initial_world in
  o = Exit0 ∧ saved w = ["Churn_Dashboard_v2.png"] ∧ length (console w) = 16%nat.
Proof. vm_compute. done. Qed.

(** * Further properties of the pipeline *)

(** ** Is_Long_Term *)

Lemma is_long_term_spec c :
  ∃ flag, is_long_term c = VInt flag ∧ (flag = 0 ∨ flag = 1) ∧
          (flag = 1 ↔ c = VStr "One year" ∨ c = VStr "Two year").
Proof.
  unfold is_long_term.
  destruct (eq_str "One year" c) eqn:H1; [|destruct (eq_str "Two year" c) eqn:H2]; cbn.
  - exists 1. apply eq_str_true in H1. intuition.
  - exists 1. apply eq_str_true in H2. intuition.
  - exists 0. apply eq_str_false in H1, H2. intuition discriminate.
Qed.

(** X1: on its input domain the feature-engineering step returns, and in
    every row Is_Long_Term is the integer 1 when the Contract cell is
    exactly "One year" or "Two year" and the integer 0 for any other cell
    (Month-to-month, a missing value, another string). *)
Theorem is_long_term_flag df :
  engineer_input df →
  ∃ df', engineer_features df = Ok df' ∧
    ∀ i, (i < nrows df)%nat →
      ∃ c flag,
        cell df "Contract" i = Some c ∧
        cell df' "Is_Long_Term" i = Some (VInt flag) ∧
        (flag = 0 ∨ flag = 1) ∧
        (flag = 1 ↔ c = VStr "One year" ∨ c = VStr "Two year").
Proof.
  intros Hin. pose proof Hin as (Hwf & _).
  destruct (engineer_features_total df Hin)
    as (cChurn & c1 & c2 & c3 & c4 & c5 & c6 & mc & t & t1 & cv & cContract & H).
  destruct H as (_ & _ & _ & _ & _ & _ & _ & _ & _ & _ & _ & HCo & Hrun).
  eexists. split; [exact Hrun|].
  intros i Hi.
  destruct (wf_column_lookup df _ _ i Hwf HCo Hi) as [c Hc].
  destruct (is_long_term_spec c) as (flag & Hflag & Hrange & Hiff).
  exists c, flag. split_and!; try done.
  - by erewrite cell_lookup.
  - erewrite cell_lookup by apply columns_engineered_long_term.
    by rewrite list_lookup_fmap, Hc; cbn; rewrite Hflag.
Qed.

(** The three contracts of [sample_table] are Month-to-month, Two year and
    One year. *)
Lemma is_long_term_flag_witness :
  ∃ df', engineer_features sample_table = Ok df' ∧
         cell df' "Is_Long_Term" 0 = Some (VInt 0) ∧
         cell df' "Is_Long_Term" 1 = Some (VInt 1).
Proof.
  destruct (is_long_term_flag sample_table engineer_input_sample)
    as (df' & Hrun & Hrows).
  exists df'. split; [exact Hrun|]. split.
  - destruct (Hrows 0%nat) as (c & flag & Hc & Hcell & [-> | ->] & Hiff); [cbn; lia | done |].
    vm_compute in Hc. injection Hc as <-.
    destruct (proj1 Hiff eq_refl) as [[=] | [=]].
  - destruct (Hrows 1%nat) as (c & flag & Hc & Hcell & _ & Hiff); [cbn; lia|].
    vm_compute in Hc. injection Hc as <-.
    rewrite Hcell. do 2 f_equal. apply Hiff. by right.
Defined.

(** ** The domain and the exceptions of engineer_features *)

Lemma map_cells_Ok_Forall {A B} (f : A → result B) (l : list A) (l' : list B) :
  map_cells f l = Ok l' → Forall (λ x, ∃ y, f x = Ok y) l.
Proof.
  intros H. apply Forall_lookup. intros i x Hx.
  destruct (map_cells_lookup _ _ _ H) as [_ Hlk].
  destruct (Hlk i x Hx) as (y & Hy & _). by exists y.
Qed.

Lemma map_cells_Raise {A B} (f : A → result B) (l : list A) e :
  map_cells f l = Raise e → ∃ x, x ∈ l ∧ f x = Raise e.
Proof.
  induction l as [|x l IH]; [discriminate|].
  cbn [map_cells]. destruct (f x) as [y|e'] eqn:Hx.
  - rewrite bind_Ok. destruct (map_cells f l) as [ys|e'']; [discriminate|].
    intros [= <-]. destruct (IH eq_refl) as (x' & Hin & Hx').
    exists x'. split; [by apply list_elem_of_further | done].
  - intros [= <-]. exists x. split; [apply list_elem_of_here | done].
Qed.

Lemma add_int_Ok k v y : add_int k v = Ok y → ¬ is_string v ∧ ¬ is_string y.
Proof.
  destruct v; [discriminate | |]; intros [= <-]; split; intros [s [=]].
Qed.

Lemma add_int_Raise k v e : add_int k v = Raise e → e = TypeError ∧ is_string v.
Proof. destruct v; [|discriminate..]. intros [= <-]. split; [done | by eexists]. Qed.


Lemma truediv_Raise a b e :
  truediv a b = Raise e → e = TypeError ∧ (is_string a ∨ is_string b).
Proof.
  destruct a as [s| |]; [intros [= <-]; split; [done | left; by eexists] | |];
    (destruct b as [s| |]; [|discriminate..]);
    intros [= <-]; (split; [done | right; by eexists]).
Qed.

Lemma sum_axis1_length n (frame : list (list bool)) :
  Forall (λ col, length col = n) frame → length (sum_axis1 n frame) = n.
Proof.
  induction 1 as [|col frame Hcol _ IH]; cbn; [apply length_replicate|].
  unfold sum_axis1 in IH. rewrite length_zip_with, Hcol, IH. lia.
Qed.

Lemma wf_engineered df cChurn c1 c2 c3 c4 c5 c6 cv cContract :
  wf df →
  length cChurn = nrows df → length cContract = nrows df → length cv = nrows df →
  Forall (λ col : list value, length col = nrows df) [c1; c2; c3; c4; c5; c6] →
  wf (engineered df cChurn [c1; c2; c3; c4; c5; c6] cv cContract).
Proof.
  intros Hwf HCh HCo Hcv Hframe. unfold engineered.
  apply wf_setitem; [| by rewrite length_fmap].
  apply wf_setitem; [| done].
  apply wf_setitem; [| rewrite length_fmap; cbn [nrows setitem]].
  - apply wf_setitem; [done | by rewrite length_fmap].
  - apply sum_axis1_length. apply Forall_fmap.
    eapply Forall_impl; [exact Hframe|]. intros col Hcol. cbn. by rewrite length_fmap.
Qed.

(** The lengths of the columns read and computed by the step on a
    well-formed table. *)
Lemma engineer_features_lengths df mc t (t1 cv : list value) :
  wf df →
  columns df !! "MonthlyCharges" = Some mc → columns df !! "tenure" = Some t →
  map_cells (add_int 1) t = Ok t1 →
  map_cells (λ p : value * value, truediv p.1 p.2) (zip mc t1) = Ok cv →
  length t1 = nrows df ∧ length cv = nrows df.
Proof.
  intros Hwf Hmc Ht Ht1 Hcv.
  destruct (map_cells_lookup _ _ _ Ht1) as [Hl1 _].
  destruct (map_cells_lookup _ _ _ Hcv) as [Hl2 _].
  rewrite (Hwf _ _ Ht) in Hl1. rewrite length_zip_with, (Hwf _ _ Hmc), Hl1 in Hl2.
  split; [done | lia].
Qed.



(** X3: the step keeps the table well formed and adds exactly the four derived
    columns: on a well-formed input the output has one cell per row in every
    column, and its column names are those of the input together with
    Churn_Numeric, Service_Count, Charge_Velocity and Is_Long_Term. *)
Theorem engineer_features_wf df df' :
  wf df → engineer_features df = Ok df' →
  wf df' ∧
  dom (columns df') = dom (columns df) ∪ list_to_set derived_columns.
Proof.
  intros Hwf H.
  apply engineer_features_inv in H
    as (cChurn & c1 & c2 & c3 & c4 & c5 & c6 & mc & t & t1 & cv & cContract & H).
  destruct H as (HCh & H1 & H2 & H3 & H4 & H5 & H6 & Hmc & Ht & Ht1 & Hcv & HCo & ->).
  destruct (engineer_features_lengths df mc t t1 cv Hwf Hmc Ht Ht1 Hcv) as [_ Hl2].
  split.
  - apply wf_engineered; try done; try (by eapply Hwf).
    repeat constructor; by eapply Hwf.
  - unfold engineered, setitem, derived_columns; cbn.
    rewrite !dom_insert_L. apply set_eq. intros k.
    set_unfold. tauto.
Qed.

(** The engineered [sample_table] is well formed and has the new columns. *)
Lemma engineer_features_wf_witness :
  wf engineered_sample ∧
  dom (columns engineered_sample)
    = dom (columns sample_table) ∪ list_to_set derived_columns.
Proof.
  exact (engineer_features_wf sample_table engineered_sample
           wf_sample_table engineered_sample_eq).
Defined.

Lemma bind_Raise_inv {A B} (f : A → result B) (m : result A) e :
  m ≫= f = Raise e → m = Raise e ∨ ∃ a, m = Ok a ∧ f a = Raise e.
Proof.
  destruct m as [a|e']; intros H; [right; by exists a | left; by injection H as ->].
Qed.

Lemma getitem_Raise df k e :
  getitem df k = Raise e → e = KeyError k ∧ columns df !! k = None.
Proof.
  unfold getitem. destruct (columns df !! k); [discriminate|]. by intros [= <-].
Qed.

Lemma getitems_Raise df ks e :
  getitems df ks = Raise e →
  ∃ missing, e = KeyErrorNotInIndex missing ∧ missing ≠ [] ∧
             missing = filter (λ k, absent df k = true) ks.
Proof.
  unfold getitems. destruct (filter (λ k, absent df k = true) ks) as [|k l] eqn:Hf.
  - intros H. exfalso.
    apply map_cells_Raise in H as (k & Hk & H).
    apply getitem_Raise in H as [_ H].
    assert (k ∈ filter (λ k, absent df k = true) ks) as Hin.
    { apply list_elem_of_filter. split; [|done]. unfold absent. by rewrite H. }
    rewrite Hf in Hin. by apply elem_of_nil in Hin.
  - intros [= <-]. by exists (k :: l).
Qed.

Lemma filter_absent_setitem df k0 c (ks : list string) :
  k0 ∉ ks →
  filter (λ k, absent (setitem df k0 c) k = true) ks
  = filter (λ k, absent df k = true) ks.
Proof.
  induction ks as [|k ks IH]; [done|]. intros Hk.
  apply not_elem_of_cons in Hk as [Hne Hk].
  assert (absent (setitem df k0 c) k = absent df k) as Heq.
  { unfold absent. by rewrite columns_setitem_ne. }
  rewrite !filter_cons, Heq, (IH Hk). done.
Qed.

Lemma has_string_intro df k (c : list value) v :
  columns df !! k = Some c → v ∈ c → is_string v → has_string df k.
Proof.
  intros Hc Hv Hs. exists c. split; [done|]. apply Exists_exists. by exists v.
Qed.

(** X4: the only exceptions of the feature-engineering step are: a KeyError
    naming Churn, MonthlyCharges, tenure or Contract, raised by the lookup
    of that one column when it is absent; the KeyError of the list lookup
    [df[services]], raised when some add-on column is absent, whose payload
    lists every absent add-on column in the order of [services]; and a
    TypeError, raised when the tenure or the MonthlyCharges column holds a
    string cell. *)
Theorem engineer_features_raises df e :
  engineer_features df = Raise e →
  (∃ k, e = KeyError k ∧ k ∈ ["Churn"; "MonthlyCharges"; "tenure"; "Contract"] ∧
        columns df !! k = None) ∨
  (∃ missing, e = KeyErrorNotInIndex missing ∧ missing ≠ [] ∧
              missing = filter (λ k, absent df k = true) services) ∨
  (e = TypeError ∧ (has_string df "tenure" ∨ has_string df "MonthlyCharges")).
Proof.
  unfold engineer_features. intros H.
  apply bind_Raise_inv in H as [H | (cChurn & HCh & H)].
  { apply getitem_Raise in H as [-> H]. left. exists "Churn"%string.
    split_and!; [done | apply list_elem_of_here | done]. }
  apply bind_Raise_inv in H as [H | (frame & Hframe & H)].
  { apply getitems_Raise in H as (missing & -> & Hne & Hmissing).
    right; left. exists missing. split_and!; [done | done |].
    rewrite Hmissing. apply filter_absent_setitem. by not_in_list. }
  apply bind_Raise_inv in H as [H | (mc & Hmc & H)].
  { rewrite !getitem_setitem_ne in H by done.
    apply getitem_Raise in H as [-> H]. left. exists "MonthlyCharges"%string.
    split_and!; [done | | done].
    apply (bool_decide_unpack _). by vm_compute. }
  apply bind_Raise_inv in H as [H | (t & Ht & H)].
  { rewrite !getitem_setitem_ne in H by done.
    apply getitem_Raise in H as [-> H]. left. exists "tenure"%string.
    split_and!; [done | | done].
    apply (bool_decide_unpack _). by vm_compute. }
  rewrite !getitem_setitem_ne in Hmc by done.
  rewrite !getitem_setitem_ne in Ht by done.
  apply getitem_Ok in Hmc, Ht.
  apply bind_Raise_inv in H as [H | (t1 & Ht1 & H)].
  { apply map_cells_Raise in H as (v & Hv & H).
    apply add_int_Raise in H as [-> Hs]. right; right. split; [done|]. left.
    by eapply has_string_intro. }
  apply bind_Raise_inv in H as [H | (cv & Hcv & H)].
  { apply map_cells_Raise in H as ([m y] & Hp & H).
    apply truediv_Raise in H as [-> [Hs | Hs]]; right; right; (split; [done|]).
    - right. eapply has_string_intro; [done | | done].
      by eapply elem_of_zip_l.
    - exfalso. apply elem_of_zip_r in Hp. cbn in Hs.
      apply list_elem_of_lookup in Hp as [i Hi].
      destruct (map_cells_lookup _ _ _ Ht1) as [Hlen Hlk].
      destruct (lookup_lt_is_Some_2 t i) as [v Hv].
      { rewrite <- Hlen. by eapply lookup_lt_Some. }
      destruct (Hlk i v Hv) as (y' & Hy' & Hi').
      rewrite Hi in Hi'. injection Hi' as <-.
      by apply add_int_Ok in Hy' as [_ ?]. }
  apply bind_Raise_inv in H as [H | (cContract & _ & H)]; [|discriminate].
  rewrite !getitem_setitem_ne in H by done.
  apply getitem_Raise in H as [-> H]. left. exists "Contract"%string.
  split_and!; [done | | done].
  apply (bool_decide_unpack _). by vm_compute.
Qed.

Lemma no_churn_raises : engineer_features no_churn_table = Raise (KeyError "Churn").
Proof. vm_compute. reflexivity. Qed.

Lemma no_backup_tv_raises :
  engineer_features no_backup_tv_table
  = Raise (KeyErrorNotInIndex ["OnlineBackup"; "StreamingTV"]).
Proof. vm_compute. reflexivity. Qed.

Lemma text_tenure_raises : engineer_features text_tenure_table = Raise TypeError.
Proof. vm_compute. reflexivity. Qed.

(** Without the Churn column the step raises KeyError('Churn'); without
    OnlineBackup and StreamingTV the list lookup names both; with a string
    in tenure the step raises TypeError. *)
Lemma engineer_features_raises_witness :
  columns no_churn_table !! "Churn" = None ∧
  filter (λ k, absent no_backup_tv_table k = true) services
    = ["OnlineBackup"; "StreamingTV"] ∧
  has_string text_tenure_table "tenure".
Proof.
  split_and!.
  - destruct (engineer_features_raises no_churn_table _ no_churn_raises)
      as [(k & [= <-] & _ & Hk) | [(missing & [=] & _) | [[=] _]]].
    exact Hk.
  - destruct (engineer_features_raises no_backup_tv_table _ no_backup_tv_raises)
      as [(k & [=] & _) | [(missing & [= <-] & _ & Hm) | [[=] _]]].
    by symmetry.
  - destruct (engineer_features_raises text_tenure_table _ text_tenure_raises)
      as [(k & [=] & _) | [(missing & [=] & _) | [_ [H | (c & Hc & _)]]]].
    + exact H.
    + vm_compute in Hc. injection Hc as <-.
      eexists. split; [reflexivity|]. apply Exists_cons_hd. by eexists.
Defined.

(** ** The domain, the frame and the exceptions of calculate_risk_scores *)

Lemma lt_int_Ok k v b : lt_int k v = Ok b → ¬ is_string v.
Proof. destruct v; [discriminate | |]; intros _ [s [=]]. Qed.

Lemma lt_int_Raise k v e : lt_int k v = Raise e → e = TypeError ∧ is_string v.
Proof. destruct v; [|discriminate..]. intros [= <-]. split; [done | by eexists]. Qed.

Lemma iadd_where_length n (mask : list bool) (zs : list Z) :
  length (iadd_where n mask zs) = (length mask `min` length zs)%nat.
Proof. apply length_zip_with. Qed.

Lemma iadd_where_bounds n hi (mask : list bool) (zs : list Z) :
  0 <= n → 0 <= hi → hi + n < 2 ^ 63 →
  Forall (λ z, 0 <= z <= hi) zs →
  Forall (λ z, 0 <= z <= hi + n) (iadd_where n mask zs).
Proof.
  intros Hn Hhi Hsum Hzs. revert mask.
  induction Hzs as [|z zs Hz _ IH]; intros [|b mask]; cbn; try constructor.
  - destruct b; [|lia]. rewrite add64_small; [lia|]. unfold int64_range. lia.
  - apply IH.
Qed.

Lemma risk_column_bounds n (cC cI cT : list value) (m : list bool) :
  Forall (λ z, 0 <= z <= 100) (risk_column n cC cI cT m).
Proof.
  unfold risk_column.
  apply (iadd_where_bounds 20 80); [lia.. |].
  apply (iadd_where_bounds 20 60); [lia.. |].
  apply (iadd_where_bounds 20 40); [lia.. |].
  apply (iadd_where_bounds 40 0); [lia.. |].
  apply Forall_replicate. lia.
Qed.

Lemma risk_column_length_le n (cC cI cT : list value) (m : list bool) :
  (length (risk_column n cC cI cT m) ≤ n)%nat.
Proof.
  unfold risk_column. rewrite !iadd_where_length, length_replicate. lia.
Qed.

Lemma risk_column_length n (cC cI cT : list value) (m : list bool) :
  length cC = n → length cI = n → length cT = n → length m = n →
  length (risk_column n cC cI cT m) = n.
Proof.
  intros HC HI HT Hm. unfold risk_column.
  rewrite !iadd_where_length, !length_fmap, length_replicate. lia.
Qed.

(** X5: the scorer returns a table exactly when the table has the columns
    Contract, InternetService, TechSupport and tenure and the tenure column
    holds no string cell; nothing else about the table matters (it need not
    be engineered or cleaned). *)
Theorem calculate_risk_scores_domain df :
  (∃ df', calculate_risk_scores df = Ok df') ↔
  has_column df "Contract" ∧ has_column df "InternetService" ∧
  has_column df "TechSupport" ∧ numeric_column df "tenure".
Proof.
  split.
  - intros [df' H].
    apply calculate_risk_scores_inv in H as (cC & cI & cT & cN & m & H).
    destruct H as (HC & HI & HT & HN & Hm & _).
    split_and!; try (by eexists).
    exists cN. split; [done|].
    eapply Forall_impl; [exact (map_cells_Ok_Forall _ _ _ Hm)|].
    intros v [b Hb]. by eapply lt_int_Ok.
  - intros ([cC HC] & [cI HI] & [cT HT] & (cN & HN & Hnum)).
    eexists. eapply calculate_risk_scores_eq; try done.
    by apply lt_12_numeric.
Qed.

(** X6: the scorer assigns only Risk_Score: whenever it returns, the row
    count and every other column are as in the input, the column names are
    those of the input together with Risk_Score, and the Risk_Score column
    holds integers between 0 and 100, at most one per row; on a well-formed
    input the output is well formed, with exactly one score per row. *)
Theorem calculate_risk_scores_frame df df' :
  calculate_risk_scores df = Ok df' →
  nrows df' = nrows df ∧
  (∀ k, k ≠ "Risk_Score" → columns df' !! k = columns df !! k) ∧
  dom (columns df') = {["Risk_Score"]} ∪ dom (columns df) ∧
  (∃ rs, columns df' !! "Risk_Score" = Some (VInt <$> rs) ∧
         Forall (λ z, 0 <= z <= 100) rs ∧
         (length rs ≤ nrows df)%nat ∧
         (wf df → length rs = nrows df)) ∧
  (wf df → wf df').
Proof.
  intros H.
  apply calculate_risk_scores_inv in H as (cC & cI & cT & cN & m & H).
  destruct H as (HC & HI & HT & HN & Hm & ->).
  assert (wf df → length (risk_column (nrows df) cC cI cT m) = nrows df) as Hlen.
  { intros Hwf. apply risk_column_length; try by eapply Hwf.
    destruct (map_cells_lookup _ _ _ Hm) as [-> _]. by eapply Hwf. }
  split_and!.
  - reflexivity.
  - intros k Hk. by apply columns_setitem_ne.
  - cbn. apply dom_insert_L.
  - eexists. split_and!; [apply lookup_insert_eq | apply risk_column_bounds
                          | apply risk_column_length_le | exact Hlen].
  - intros Hwf. apply wf_setitem; [done|]. rewrite length_fmap. by apply Hlen.
Qed.

(** Scoring the engineered [sample_table] keeps its three rows and its
    Contract column. *)
Lemma calculate_risk_scores_frame_witness :
  nrows scored_sample = 3%nat ∧
  columns scored_sample !! "Contract"
    = Some [VStr "Month-to-month"; VStr "Two year"; VStr "One year"].
Proof.
  destruct (calculate_risk_scores_frame engineered_sample scored_sample scored_sample_eq)
    as (Hn & Hframe & _).
  split; [exact Hn|].
  rewrite Hframe by done. by vm_compute.
Defined.

(** X7: the only exceptions of the scorer are a KeyError for Contract,
    InternetService, TechSupport or tenure, raised when that column is not
    in the table, and a TypeError, raised when the tenure column holds a
    string cell. *)
Theorem calculate_risk_scores_raises df e :
  calculate_risk_scores df = Raise e →
  (∃ k, e = KeyError k ∧ k ∈ scorer_columns ∧ columns df !! k = None) ∨
  (e = TypeError ∧ has_string df "tenure").
Proof.
  unfold calculate_risk_scores, setitem_scalar. intros H.
  rewrite <- (fmap_replicate VInt) in H.
  rewrite getitem_setitem_ne in H by done.
  apply bind_Raise_inv in H as [H | (cC & _ & H)].
  { apply getitem_Raise in H as [-> H]. left. exists "Contract"%string.
    split_and!; [done | apply (bool_decide_unpack _); by vm_compute | done]. }
  erewrite loc_iadd_ints in H by apply lookup_insert_eq.
  rewrite bind_Ok, setitem_setitem, getitem_setitem_ne in H by done.
  apply bind_Raise_inv in H as [H | (cI & _ & H)].
  { apply getitem_Raise in H as [-> H]. left. exists "InternetService"%string.
    split_and!; [done | apply (bool_decide_unpack _); by vm_compute | done]. }
  erewrite loc_iadd_ints in H by apply lookup_insert_eq.
  rewrite bind_Ok, setitem_setitem, getitem_setitem_ne in H by done.
  apply bind_Raise_inv in H as [H | (cT & _ & H)].
  { apply getitem_Raise in H as [-> H]. left. exists "TechSupport"%string.
    split_and!; [done | apply (bool_decide_unpack _); by vm_compute | done]. }
  erewrite loc_iadd_ints in H by apply lookup_insert_eq.
  rewrite bind_Ok, setitem_setitem, getitem_setitem_ne in H by done.
  apply bind_Raise_inv in H as [H | (cN & HN & H)].
  { apply getitem_Raise in H as [-> H]. left. exists "tenure"%string.
    split_and!; [done | apply (bool_decide_unpack _); by vm_compute | done]. }
  apply getitem_Ok in HN.
  apply bind_Raise_inv in H as [H | (m & _ & H)].
  { apply map_cells_Raise in H as (v & Hv & H).
    apply lt_int_Raise in H as [-> Hs]. right. split; [done|].
    by eapply has_string_intro. }
  erewrite loc_iadd_ints in H by apply lookup_insert_eq.
  discriminate H.
Qed.

Lemma text_tenure_scorer_raises :
  calculate_risk_scores text_tenure_table = Raise TypeError.
Proof. vm_compute. reflexivity. Qed.

(** With the string "three" in tenure the scorer raises TypeError. *)
Lemma calculate_risk_scores_raises_witness : has_string text_tenure_table "tenure".
Proof.
  destruct (calculate_risk_scores_raises text_tenure_table _ text_tenure_scorer_raises)
    as [(k & [=] & _) | [_ H]].
  exact H.
Defined.

(** ** More on the cleaning of TotalCharges *)

Lemma isna_true v : isna v = true → v = VFloat NaN.
Proof. destruct v as [| |[]]; by try discriminate. Qed.

Lemma fillna_NaN (c : list value) : fillna NaN c = c.
Proof.
  unfold fillna. induction c as [|v c IH]; [done|].
  rewrite fmap_cons, IH. f_equal.
  destruct (isna v) eqn:Hv; [by apply isna_true in Hv | done].
Qed.

Lemma fillna_no_missing m (c : list value) :
  Forall (λ v, isna v = false) c → fillna m c = c.
Proof.
  unfold fillna. induction 1 as [|v c Hv _ IH]; [done|].
  by rewrite fmap_cons, IH, Hv.
Qed.

Lemma parsed_to_numeric parse v : parsed parse (to_numeric parse v) = parsed parse v.
Proof. by destruct v. Qed.

Lemma to_numeric_not_string parse v : ¬ is_string (to_numeric parse v).
Proof. destruct v; intros [? [=]]. Qed.

Lemma to_numeric_id parse v : ¬ is_string v → to_numeric parse v = v.
Proof. destruct v; [intros H; destruct H; by eexists | done..]. Qed.

Lemma fillna_not_string m (c : list value) :
  Forall (λ v, ¬ is_string v) c → Forall (λ v, ¬ is_string v) (fillna m c).
Proof.
  intros H. unfold fillna. apply Forall_fmap.
  eapply Forall_impl; [exact H|]. intros v Hv. cbn.
  destruct (isna v); [intros [? [=]] | done].
Qed.

Lemma cleaned_not_string parse m (c : list value) :
  Forall (λ v, ¬ is_string v) (fillna m (to_numeric parse <$> c)).
Proof.
  apply fillna_not_string, Forall_fmap, Forall_forall.
  intros v _. apply to_numeric_not_string.
Qed.

Lemma fmap_to_numeric_id parse (c : list value) :
  Forall (λ v, ¬ is_string v) c → to_numeric parse <$> c = c.
Proof.
  induction 1 as [|v c Hv _ IH]; [done|].
  by rewrite fmap_cons, IH, to_numeric_id.
Qed.

Lemma fillna_defined m (c : list value) :
  m ≠ NaN → Forall (λ v, isna v = false) (fillna m c).
Proof.
  intros Hm. unfold fillna. apply Forall_fmap, Forall_forall. intros v _. cbn.
  destruct (isna v) eqn:Hv; [by destruct m | done].
Qed.

Lemma cleaned_column_fixed parse (c : list value) :
  let c' := fillna (median_of_parsed parse c) (to_numeric parse <$> c) in
  fillna (median_of_parsed parse c') (to_numeric parse <$> c') = c'.
Proof.
  intros c'.
  rewrite (fmap_to_numeric_id parse c') by apply cleaned_not_string.
  destruct (decide (median_of_parsed parse c = NaN)) as [Hnan|Hdef].
  - assert (c' = to_numeric parse <$> c) as Hc'.
    { unfold c'. by rewrite Hnan, fillna_NaN. }
    assert (median_of_parsed parse c' = NaN) as ->; [|apply fillna_NaN].
    rewrite <- Hnan, Hc'. unfold median_of_parsed. do 2 f_equal.
    rewrite <- list_fmap_compose. apply list_fmap_ext. intros i v _. cbn.
    apply parsed_to_numeric.
  - apply fillna_no_missing. by apply fillna_defined.
Qed.

(** X8: the cleaning of TotalCharges is idempotent: applied to its own
    output it returns that output again (a cleaned column holds no string,
    and either it has no missing value left or its median is still NaN). *)
Theorem clean_total_charges_idempotent parse df df' :
  clean_total_charges parse df = Ok df' →
  clean_total_charges parse df' = Ok df'.
Proof.
  intros H. apply clean_total_charges_inv in H as (c & Hc & ->).
  erewrite clean_total_charges_eq by apply lookup_insert_eq.
  f_equal. rewrite setitem_setitem. f_equal. apply cleaned_column_fixed.
Qed.

Lemma cleaned_sample_eq :
  clean_total_charges sample_parse sample_table
  = Ok (setitem sample_table "TotalCharges"
          (fillna (median_of_parsed sample_parse [VStr "29.85"; VStr " "; VStr "1840.75"])
                  (to_numeric sample_parse <$> [VStr "29.85"; VStr " "; VStr "1840.75"]))).
Proof. by apply clean_total_charges_eq. Qed.

(** Cleaning the cleaned [sample_table] changes nothing. *)
Lemma clean_total_charges_idempotent_witness :
  ∃ df', clean_total_charges sample_parse sample_table = Ok df' ∧
         clean_total_charges sample_parse df' = Ok df'.
Proof.
  eexists. split; [exact cleaned_sample_eq|].
  exact (clean_total_charges_idempotent sample_parse sample_table _ cleaned_sample_eq).
Defined.

(** X9: the cleaning step raises KeyError('TotalCharges') when the table has
    no such column and returns otherwise, whatever the cells hold; when it
    returns, the row count and every other column are unchanged, and the
    cleaned column has as many cells as before, none of them a string; a
    well-formed table stays well formed. *)
Theorem clean_total_charges_total parse df :
  (columns df !! "TotalCharges" = None ∧
   clean_total_charges parse df = Raise (KeyError "TotalCharges")) ∨
  (∃ c c' df',
     columns df !! "TotalCharges" = Some c ∧
     clean_total_charges parse df = Ok df' ∧
     nrows df' = nrows df ∧
     (∀ k, k ≠ "TotalCharges" → columns df' !! k = columns df !! k) ∧
     columns df' !! "TotalCharges" = Some c' ∧
     length c' = length c ∧
     Forall (λ v, ¬ is_string v) c' ∧
     (wf df → wf df')).
Proof.
  destruct (columns df !! "TotalCharges") as [c|] eqn:Hc.
  - right. eexists c, _, _. split_and!.
    + done.
    + by apply clean_total_charges_eq.
    + done.
    + intros k Hk. by apply columns_setitem_ne.
    + apply lookup_insert_eq.
    + unfold fillna. by rewrite !length_fmap.
    + apply cleaned_not_string.
    + intros Hwf. apply wf_setitem; [done|].
      unfold fillna. rewrite !length_fmap. by eapply Hwf.
  - left. split; [done|]. unfold clean_total_charges, getitem. by rewrite Hc.
Qed.

(** ** The imputed median lies among the parsed values *)

Lemma fle_total x y : notnan x = true → notnan y = true → fle x y = false → fle y x = true.
Proof.
  destruct x as [a| | |], y as [b| | |]; cbn; try done.
  intros _ _ Hab. apply Qle_bool_iff. apply Qlt_le_weak, Qnot_le_lt.
  intros Hle. apply Qle_bool_iff in Hle. congruence.
Qed.

Lemma insert_sorted_sorted x l :
  notnan x = true → Forall (λ y, notnan y = true) l →
  sorted_floats l → sorted_floats (insert_sorted x l).
Proof.
  intros Hx. induction 1 as [|y l Hy Hl IH]; intros Hs; [done|].
  cbn [insert_sorted]. destruct (fle x y) eqn:Hxy; [by split|].
  cbn [sorted_floats] in *. destruct Hs as [Hhd Hs]. split; [|by apply IH].
  destruct l as [|z l]; cbn [insert_sorted].
  - by apply fle_total.
  - destruct (fle x z); [by apply fle_total | done].
Qed.

Lemma sort_floats_sorted l :
  Forall (λ y, notnan y = true) l → sorted_floats (sort_floats l).
Proof.
  induction 1 as [|x l Hx Hl IH]; [done|].
  change (sort_floats (x :: l)) with (insert_sorted x (sort_floats l)).
  apply insert_sorted_sorted; [done | by apply sort_floats_Forall | done].
Qed.

Lemma sorted_floats_adjacent (s : list float) i d :
  sorted_floats s → (S i < length s)%nat → fle (nth i s d) (nth (S i) s d) = true.
Proof.
  revert i. induction s as [|x s IH]; intros i Hs Hi; [cbn in Hi; lia|].
  destruct Hs as [Hhd Hs]. destruct i as [|i].
  - destruct s as [|y s]; [cbn in Hi; lia | exact Hhd].
  - cbn [nth]. apply IH; [done | cbn in Hi; lia].
Qed.

Lemma filter_notnan_parsed parse (c : list value) :
  Forall (λ v, parsed parse v = NaN ∨ is_finite (parsed parse v)) c →
  filter (λ x, notnan x = true) (parsed parse <$> c) = Finite <$> parsed_numbers parse c.
Proof.
  unfold parsed_numbers.
  induction 1 as [|v c Hv _ IH]; [done|].
  rewrite fmap_cons. cbn [omap list_omap]. destruct Hv as [Hv | [q Hv]]; rewrite Hv.
  - by rewrite filter_cons_False.
  - rewrite filter_cons_True by done. cbn. by rewrite IH.
Qed.

Lemma even_half n : Nat.even (S n) = true → S (S n / 2 - 1) = (S n / 2)%nat.
Proof.
  intros He. apply Nat.even_spec in He as [k Hk]. rewrite Hk.
  rewrite (Nat.mul_comm 2 k), Nat.div_mul by done. lia.
Qed.

(** The median of a nonempty list of finite numbers: a number between two
    of them, or an infinity when the sum of the two middle values reaches
    the overflow threshold. *)
Lemma median_floats_between (qs : list Q) :
  qs ≠ [] →
  ∃ lo hi, lo ∈ qs ∧ hi ∈ qs ∧ (lo <= hi)%Q ∧
    ((∃ q, median_floats (Finite <$> qs) = Finite q ∧ (lo <= q <= hi)%Q) ∨
     (median_floats (Finite <$> qs) = PInf ∧ (float64_overflow <= lo + hi)%Q) ∨
     (median_floats (Finite <$> qs) = NInf ∧ (lo + hi <= - float64_overflow)%Q)).
Proof.
  intros Hne. unfold median_floats.
  set (l := Finite <$> qs).
  assert (Forall (λ x, ∃ q, x = Finite q ∧ q ∈ qs) (sort_floats l)) as Hin.
  { apply sort_floats_Forall, Forall_fmap, Forall_forall. intros q Hq. by exists q. }
  assert (sorted_floats (sort_floats l)) as Hsorted.
  { apply sort_floats_sorted, Forall_fmap, Forall_forall. by intros q _. }
  pose proof (sort_floats_length l) as Hlen.
  destruct (length (sort_floats l)) as [|n] eqn:Hn.
  { unfold l in Hlen. rewrite length_fmap in Hlen. destruct qs; [done | discriminate]. }
  assert ((S n / 2 < length (sort_floats l))%nat) as H1.
  { rewrite Hn. apply Nat.div_lt; lia. }
  destruct (Nat.even (S n)) eqn:He.
  - pose proof (even_half n He) as Hhalf.
    assert ((S n / 2 - 1 < length (sort_floats l))%nat) as H2 by lia.
    pose proof (sorted_floats_adjacent _ (S n / 2 - 1) NaN Hsorted) as Hadj.
    rewrite Hhalf in Hadj. specialize (Hadj H1).
    destruct (nth_Forall _ _ _ NaN Hin H2) as (a & Ha & Hain).
    destruct (nth_Forall _ _ _ NaN Hin H1) as (b & Hb & Hbin).
    rewrite Ha, Hb in Hadj |- *. cbn in Hadj. apply Qle_bool_iff in Hadj.
    exists a, b. split_and!; [done | done | done |].
    destruct (fadd64_finite a b) as [[-> Hov] | [[-> Hov] | [-> _]]].
    + right; left. by split.
    + right; right. by split.
    + left. exists ((a + b) / 2)%Q. rewrite fdiv_two. split_and!; [done | |].
      * apply Qle_shift_div_l; [reflexivity | lra].
      * apply Qle_shift_div_r; [reflexivity | lra].
  - destruct (nth_Forall _ _ _ NaN Hin H1) as (a & Ha & Hain).
    exists a, a. rewrite Ha. split_and!; [done | done | lra |].
    left. exists a. split_and!; [done | lra | lra].
Qed.

(** X10: when the values that parse are finite and there is at least one,
    the median that the cleaning step writes into the missing cells is
    never NaN: it is a finite number between two of the parsed values of the
    column (so never below the smallest nor above the largest of them), or,
    when the sum of the two middle values reaches the float64 overflow
    threshold, the infinity of the sign of that sum.  When twice every
    parsed value is inside the float64 range, the median is the finite
    number. *)
Theorem imputed_median_in_range parse (c : list value) :
  Forall (λ v, parsed parse v = NaN ∨ is_finite (parsed parse v)) c →
  parsed_numbers parse c ≠ [] →
  ∃ lo hi,
    lo ∈ parsed_numbers parse c ∧ hi ∈ parsed_numbers parse c ∧ (lo <= hi)%Q ∧
    ((∃ q, median_of_parsed parse c = Finite q ∧ (lo <= q <= hi)%Q) ∨
     (median_of_parsed parse c = PInf ∧ (float64_overflow <= lo + hi)%Q) ∨
     (median_of_parsed parse c = NInf ∧ (lo + hi <= - float64_overflow)%Q)) ∧
    (Forall (λ x, (- float64_overflow < 2 * x < float64_overflow)%Q)
            (parsed_numbers parse c) →
     ∃ q, median_of_parsed parse c = Finite q ∧ (lo <= q <= hi)%Q).
Proof.
  intros Hfin Hne. unfold median_of_parsed.
  rewrite (filter_notnan_parsed parse c Hfin).
  destruct (median_floats_between _ Hne) as (lo & hi & Hlo & Hhi & Hle & Hcases).
  exists lo, hi. split_and!; [done | done | done | done |].
  intros Hrange. rewrite Forall_forall in Hrange.
  pose proof (Hrange lo Hlo) as [Hlo1 Hlo2]. pose proof (Hrange hi Hhi) as [Hhi1 Hhi2].
  destruct Hcases as [Hq | [[_ Hov] | [_ Hov]]]; [done | lra | lra].
Qed.

(** For the column "29.85", " ", "1840.75" of [sample_table]. *)
Lemma imputed_median_in_range_witness :
  ∃ q, median_of_parsed sample_parse [VStr "29.85"; VStr " "; VStr "1840.75"] = Finite q ∧
       (2985 # 100 <= q <= 184075 # 100)%Q.
Proof.
  destruct (imputed_median_in_range sample_parse [VStr "29.85"; VStr " "; VStr "1840.75"])
    as (lo & hi & Hlo & Hhi & _ & _ & Hfinite).
  - constructor; [right; by eexists|].
    constructor; [by left|].
    constructor; [right; by eexists | constructor].
  - discriminate.
  - destruct Hfinite as (q & Hq & Hlq & Hqh).
    { constructor; [by vm_compute|]. constructor; [by vm_compute | constructor]. }
    exists q. split; [exact Hq|].
    assert (∀ x, x ∈ [2985 # 100; 184075 # 100] →
                 (2985 # 100 <= x <= 184075 # 100)%Q) as Hall.
    { intros x Hx. apply elem_of_cons in Hx as [-> | Hx]; [by vm_compute|].
      apply elem_of_cons in Hx as [-> | Hx]; [by vm_compute|].
      by apply elem_of_nil in Hx. }
    destruct (Hall lo Hlo) as [H1 _]. destruct (Hall hi Hhi) as [_ H2].
    split; lra.
Defined.

(** ** More on Charge_Velocity *)

Lemma inject_Z_succ_ge_1 t : 0 <= t → (1 <= inject_Z (t + 1))%Q.
Proof. intros Ht. unfold Qle; cbn. lia. Qed.

(** X11: in a row whose tenure is an int64 with 0 <= tenure < 2^63 - 1 and
    whose monthly charge is a finite number that is not negative,
    Charge_Velocity is a finite number between 0 and the monthly charge. *)
Theorem charge_velocity_at_most_charge df :
  engineer_input df →
  ∃ df', engineer_features df = Ok df' ∧
    ∀ i t m q,
      cell df "tenure" i = Some (VInt t) → 0 <= t < 2 ^ 63 - 1 →
      cell df "MonthlyCharges" i = Some m → to_float m = Ok (Finite q) →
      (0 <= q)%Q →
      ∃ v, cell df' "Charge_Velocity" i = Some (VNum v) ∧ (0 <= v <= q)%Q.
Proof.
  intros Hin.
  destruct (charge_velocity_row df Hin) as (df' & Hrun & Hrows).
  exists df'. split; [exact Hrun|].
  intros i t m q Ht Hrange Hm Hq Hpos.
  destruct (Hrows i _ m Ht Hm) as (y & z & Hy & Hz & Hcell).
  cbn in Hy. injection Hy as <-.
  unfold truediv in Hz. rewrite Hq, bind_Ok in Hz. cbn in Hz.
  rewrite add64_succ in Hz by done.
  rewrite Qzero_inject_Z in Hz by lia. injection Hz as <-.
  exists (q / inject_Z (t + 1))%Q. split; [exact Hcell|].
  pose proof (inject_Z_succ_ge_1 t (proj1 Hrange)) as Hd.
  split.
  - apply Qle_shift_div_l; [lra | lra].
  - apply Qle_shift_div_r; [lra | nra].
Qed.

(** Tenure 48 and charge 20.05 in the second row of [sample_table]. *)
Lemma charge_velocity_at_most_charge_witness :
  ∃ df' v, engineer_features sample_table = Ok df' ∧
           cell df' "Charge_Velocity" 1 = Some (VNum v) ∧ (0 <= v <= 2005 # 100)%Q.
Proof.
  destruct (charge_velocity_at_most_charge sample_table engineer_input_sample)
    as (df' & Hrun & Hrows).
  destruct (Hrows 1%nat 48 (VNum (2005 # 100)) (2005 # 100)) as (v & Hcell & Hv);
    [reflexivity | lia | reflexivity | reflexivity | by vm_compute |].
  exists df', v. split; [exact Hrun|]. split; [exact Hcell | exact Hv].
Defined.

(** X12: a tenure of -1 makes the divisor zero, and the step does not raise:
    Charge_Velocity is +inf for a positive monthly charge, -inf for a
    negative one and NaN for a zero charge. *)
Theorem charge_velocity_zero_divisor df :
  engineer_input df →
  ∃ df', engineer_features df = Ok df' ∧
    ∀ i m q,
      cell df "tenure" i = Some (VInt (-1)) →
      cell df "MonthlyCharges" i = Some m → to_float m = Ok (Finite q) →
      ((0 < q)%Q → cell df' "Charge_Velocity" i = Some (VFloat PInf)) ∧
      ((q == 0)%Q → cell df' "Charge_Velocity" i = Some (VFloat NaN)) ∧
      ((q < 0)%Q → cell df' "Charge_Velocity" i = Some (VFloat NInf)).
Proof.
  intros Hin.
  destruct (charge_velocity_row df Hin) as (df' & Hrun & Hrows).
  exists df'. split; [exact Hrun|].
  intros i m q Ht Hm Hq.
  destruct (Hrows i _ m Ht Hm) as (y & z & Hy & Hz & Hcell).
  cbn in Hy. injection Hy as <-.
  unfold truediv in Hz. rewrite Hq, bind_Ok in Hz. cbn in Hz.
  injection Hz as <-. rewrite Hcell. unfold Qzero, Qpos.
  split_and!.
  - intros Hpos.
    destruct (Qeq_bool q 0) eqn:H0; [apply Qeq_bool_iff in H0; lra|].
    destruct (Qle_bool q 0) eqn:H1; [apply Qle_bool_iff in H1; lra | done].
  - intros Hz. apply Qeq_bool_iff in Hz. by rewrite Hz.
  - intros Hneg.
    destruct (Qeq_bool q 0) eqn:H0; [apply Qeq_bool_iff in H0; lra|].
    destruct (Qle_bool q 0) eqn:H1; [done|].
    exfalso. assert (q <= 0)%Q as Hle by lra.
    apply Qle_bool_iff in Hle. congruence.
Qed.

Lemma engineer_input_negative_tenure : engineer_input negative_tenure_table.
Proof.
  split_and!.
  - apply wf_setitem; [apply wf_setitem; [exact wf_sample_table | done] | done].
  - by eexists.
  - unfold services. repeat constructor; by eexists.
  - eexists. split; [reflexivity|]. repeat constructor; intros [s [=]].
  - eexists. split; [reflexivity|]. repeat constructor; intros [s [=]].
  - by eexists.
Qed.

(** Charges 70.35, 0 and -19.95 over a tenure of -1. *)
Lemma charge_velocity_zero_divisor_witness :
  ∃ df', engineer_features negative_tenure_table = Ok df' ∧
         cell df' "Charge_Velocity" 0 = Some (VFloat PInf) ∧
         cell df' "Charge_Velocity" 1 = Some (VFloat NaN) ∧
         cell df' "Charge_Velocity" 2 = Some (VFloat NInf).
Proof.
  destruct (charge_velocity_zero_divisor negative_tenure_table
              engineer_input_negative_tenure) as (df' & Hrun & Hrows).
  exists df'. split; [exact Hrun|]. split_and!.
  - destruct (Hrows 0%nat (VNum (7035 # 100)) (7035 # 100)) as (H & _ & _);
      [reflexivity.. |]. by apply H.
  - destruct (Hrows 1%nat (VNum 0) 0%Q) as (_ & H & _); [reflexivity.. |]. by apply H.
  - destruct (Hrows 2%nat (VNum (- (1995 # 100))) (- (1995 # 100))%Q) as (_ & _ & H);
      [reflexivity.. |]. by apply H.
Defined.

(** ** More on the report *)

Lemma print_all_app ps w :
  console (print_all ps w) = console w ++ ps ∧ saved (print_all ps w) = saved w.
Proof.
  unfold print_all. revert w. induction ps as [|p ps IH]; intros w; cbn.
  - by rewrite app_nil_r.
  - destruct (IH (print p w)) as [-> ->]. cbn. by rewrite <- app_assoc.
Qed.

Lemma to_float_Raise v e : to_float v = Raise e → e = TypeError.
Proof. destruct v; [|discriminate..]. by intros [= <-]. Qed.

Lemma ge_int_Raise k v e : ge_int k v = Raise e → e = TypeError.
Proof. destruct v; [|discriminate..]. by intros [= <-]. Qed.

Lemma series_mean_Raise col e : series_mean col = Raise e → e = TypeError.
Proof.
  unfold series_mean. intros H.
  apply bind_Raise_inv in H as [H | (xs & _ & H)].
  - apply map_cells_Raise in H as (v & _ & H). by eapply to_float_Raise.
  - by destruct (filter _ xs).
Qed.

Lemma report_stats_Raise df e :
  report_stats df = Raise e →
  e = KeyError "Churn_Numeric" ∨ e = KeyError "Risk_Score" ∨ e = TypeError.
Proof.
  unfold report_stats. intros H.
  apply bind_Raise_inv in H as [H | (cn & _ & H)].
  { apply getitem_Raise in H as [-> _]. by left. }
  apply bind_Raise_inv in H as [H | (m & _ & H)].
  { apply series_mean_Raise in H. by right; right. }
  apply bind_Raise_inv in H as [H | (rs & _ & H)].
  { apply getitem_Raise in H as [-> _]. by right; left. }
  apply bind_Raise_inv in H as [H | (avg & _ & H)].
  { apply series_mean_Raise in H. by right; right. }
  apply bind_Raise_inv in H as [H | (rs' & _ & H)].
  { apply getitem_Raise in H as [-> _]. by right; left. }
  apply bind_Raise_inv in H as [H | (flags & _ & H)]; [|discriminate].
  apply map_cells_Raise in H as (v & _ & H). apply ge_int_Raise in H. by right; right.
Qed.

Lemma defined_ints_VInt (rs : list Z) : defined_ints (VInt <$> rs) = rs.
Proof.
  induction rs as [|z rs IH]; [done|]. cbn. unfold defined_ints in IH. by rewrite IH.
Qed.

(** The aggregates of a table whose Churn_Numeric column holds integers or
    missing values and whose Risk_Score column holds integers. *)
Lemma report_stats_columns df (cn : list value) (rs : list Z) :
  columns df !! "Churn_Numeric" = Some cn → Forall int_or_missing cn →
  columns df !! "Risk_Score" = Some (VInt <$> rs) →
  ∃ r, report_stats df = Ok r ∧
       float_equiv (churn_rate r) (fmul (mean_of (defined_ints cn)) (float_of_Z 100)) ∧
       float_equiv (avg_risk r) (mean_of rs) ∧
       high_risk_base r = count_high_risk rs.
Proof.
  intros Hcn Hshape Hrs.
  destruct (series_mean_ints cn Hshape) as (mc & Hmc & Hmc').
  destruct (series_mean_ints (VInt <$> rs)) as (mr & Hmr & Hmr').
  { apply Forall_fmap, Forall_forall. intros z _. left. by eexists. }
  rewrite defined_ints_VInt in Hmr'.
  exists (mkReport (fmul mc (float_of_Z 100)) mr (count_high_risk rs)).
  split_and!; [| by apply fmul_100_equiv | done | done].
  unfold report_stats.
  rewrite (getitem_Some _ _ _ Hcn), (getitem_Some _ _ _ Hrs).
  rewrite ?bind_Ok, Hmc, ?bind_Ok, Hmr, ?bind_Ok, ge_60_ints, ?bind_Ok.
  by rewrite sum_bool_count.
Qed.

(** The two columns the report reads, in an engineered and scored table. *)
Lemma scored_columns df0 df1 df2 :
  engineer_features df0 = Ok df1 → calculate_risk_scores df1 = Ok df2 →
  ∃ (cChurn : list value) (rs : list Z),
    columns df0 !! "Churn" = Some cChurn ∧
    columns df2 !! "Churn_Numeric" = Some (churn_map <$> cChurn) ∧
    columns df2 !! "Risk_Score" = Some (VInt <$> rs) ∧
    Forall (λ z, 0 <= z <= 100) rs ∧
    (length rs ≤ nrows df0)%nat ∧ nrows df2 = nrows df0.
Proof.
  intros Heng Hscore.
  apply engineer_features_inv in Heng
    as (cChurn & c1 & c2 & c3 & c4 & c5 & c6 & mc & t & t1 & cv & cContract & H).
  destruct H as (HCh & _ & _ & _ & _ & _ & _ & _ & _ & _ & _ & _ & ->).
  apply calculate_risk_scores_inv in Hscore as (cC & cI & cT & cN & m & H).
  destruct H as (_ & _ & _ & _ & _ & ->).
  eexists cChurn, _. split_and!.
  - done.
  - rewrite columns_setitem_ne by done. apply columns_engineered_churn.
  - apply lookup_insert_eq.
  - apply risk_column_bounds.
  - apply risk_column_length_le.
  - done.
Qed.

(** X13: [generate_report] computes the three aggregates before it prints
    anything and never writes a file: either the aggregates raise (a
    KeyError for Churn_Numeric or Risk_Score, or a TypeError) and nothing
    is printed, or the sixteen lines of the report are appended to the
    console, lines 4 to 6 carrying the churn rate, the average risk and the
    high-risk count. *)
Theorem generate_report_all_or_nothing df w :
  (∃ e, report_stats df = Raise e ∧ generate_report df w = (Raise e, w) ∧
        (e = KeyError "Churn_Numeric" ∨ e = KeyError "Risk_Score" ∨ e = TypeError)) ∨
  (∃ r w' lines,
     report_stats df = Ok r ∧ generate_report df w = (Ok (), w') ∧
     saved w' = saved w ∧ console w' = console w ++ lines ∧
     length lines = 16%nat ∧
     lines !! 3%nat = Some (ChurnRateLine (churn_rate r)) ∧
     lines !! 4%nat = Some (AvgRiskLine (avg_risk r)) ∧
     lines !! 5%nat = Some (HighRiskLine (high_risk_base r))).
Proof.
  unfold generate_report. destruct (report_stats df) as [r|e] eqn:Hr.
  - right. eexists r, _, _.
    split_and!; [done | reflexivity | apply print_all_app | apply print_all_app
                 | reflexivity ..].
  - left. exists e. split_and!; [done | done | by apply (report_stats_Raise df)].
Qed.

(** X14: the report depends on the scoring done inside [create_dashboard]:
    on a table that was engineered but not scored (no Risk_Score column),
    [generate_report] raises KeyError('Risk_Score') and prints nothing. *)
Theorem generate_report_needs_scores df0 df1 w :
  engineer_features df0 = Ok df1 →
  columns df0 !! "Risk_Score" = None →
  generate_report df1 w = (Raise (KeyError "Risk_Score"), w).
Proof.
  intros Heng Hnone.
  apply engineer_features_inv in Heng
    as (cChurn & c1 & c2 & c3 & c4 & c5 & c6 & mc & t & t1 & cv & cContract & H).
  destruct H as (_ & _ & _ & _ & _ & _ & _ & _ & _ & _ & _ & _ & ->).
  destruct (series_mean_ints (churn_map <$> cChurn)) as (m & Hm & _).
  { apply Forall_fmap, Forall_forall. intros v _. apply churn_map_int_or_missing. }
  unfold generate_report, report_stats.
  rewrite (getitem_Some _ _ _ (columns_engineered_churn _ _ _ _ _)), bind_Ok.
  rewrite Hm, bind_Ok.
  unfold getitem. rewrite columns_engineered_other by not_in_list.
  by rewrite Hnone.
Qed.

(** The engineered [sample_table] has no Risk_Score yet. *)
Lemma generate_report_needs_scores_witness :
  generate_report engineered_sample initial_world
  = (Raise (KeyError "Risk_Score"), initial_world).
Proof.
  apply (generate_report_needs_scores sample_table engineered_sample).
  - exact engineered_sample_eq.
  - reflexivity.
Defined.

Lemma sum_Z_bounds hi (zs : list Z) :
  Forall (λ z, 0 <= z <= hi) zs → 0 <= sum_Z zs <= hi * Z.of_nat (length zs).
Proof.
  induction 1 as [|z zs Hz _ IH]; [cbn; lia|].
  change (sum_Z (z :: zs)) with (z + sum_Z zs). cbn [length].
  rewrite Nat2Z.inj_succ, Z.mul_succ_r. lia.
Qed.

Lemma float_equiv_Finite m q :
  float_equiv m (Finite q) → ∃ q', m = Finite q' ∧ (q' == q)%Q.
Proof. destruct m as [q'| | |]; cbn; [|done..]. intros H. by exists q'. Qed.

Lemma float_equiv_NaN m : float_equiv m NaN → m = NaN.
Proof. by destruct m. Qed.

Lemma mean_of_bounds hi (zs : list Z) m :
  Forall (λ z, 0 <= z <= hi) zs → float_equiv m (mean_of zs) →
  m = NaN ∨ ∃ q, m = Finite q ∧ (0 <= q <= inject_Z hi)%Q.
Proof.
  intros Hzs Hm. destruct zs as [|z zs]; [left; by apply float_equiv_NaN|].
  right. apply float_equiv_Finite in Hm as (q & -> & Hq). exists q. split; [done|].
  pose proof (sum_Z_bounds hi _ Hzs) as [Hlo Hhi].
  set (s := sum_Z (z :: zs)) in *. set (n := Z.of_nat (length (z :: zs))) in *.
  assert (0 < n) as Hn by (unfold n; cbn [length]; lia).
  assert (0 < inject_Z n)%Q as Hn'.
  { change 0%Q with (inject_Z 0). by rewrite <- Zlt_Qlt. }
  rewrite Hq. split.
  - apply Qle_shift_div_l; [done|]. rewrite Qmult_0_l.
    change 0%Q with (inject_Z 0). by rewrite <- Zle_Qle.
  - apply Qle_shift_div_r; [done|]. rewrite <- inject_Z_mult. by rewrite <- Zle_Qle.
Qed.

Lemma churn_defined_bounds (c : list value) :
  Forall (λ z, 0 <= z <= 1) (defined_ints (churn_map <$> c)).
Proof.
  induction c as [|v c IH]; [constructor|].
  rewrite fmap_cons. unfold defined_ints in *. cbn [omap list_omap]. unfold churn_map at 1.
  destruct (eq_str "Yes" v); [constructor; [lia | done]|].
  destruct (eq_str "No" v); [constructor; [lia | done] | done].
Qed.

Lemma count_high_risk_bounds (rs : list Z) :
  0 <= count_high_risk rs <= Z.of_nat (length rs).
Proof.
  unfold count_high_risk. pose proof (length_filter (λ z, 60 <= z) rs). lia.
Qed.

(** X15: on an engineered and scored table the aggregates are within their
    ranges: the high-risk count lies between 0 and the number of rows, the
    average risk is NaN (no row) or a number between 0 and 100, and the
    churn rate is NaN (no row labelled "Yes" or "No") or a number between 0
    and 100. *)
Theorem report_within_bounds df0 df1 df2 :
  engineer_features df0 = Ok df1 → calculate_risk_scores df1 = Ok df2 →
  ∃ r, report_stats df2 = Ok r ∧
       0 <= high_risk_base r <= Z.of_nat (nrows df0) ∧
       (avg_risk r = NaN ∨ ∃ q, avg_risk r = Finite q ∧ (0 <= q <= 100)%Q) ∧
       (churn_rate r = NaN ∨ ∃ q, churn_rate r = Finite q ∧ (0 <= q <= 100)%Q).
Proof.
  intros Heng Hscore.
  destruct (scored_columns df0 df1 df2 Heng Hscore)
    as (cChurn & rs & _ & Hcn & Hrs & Hbounds & Hlen & _).
  destruct (report_stats_columns df2 _ rs Hcn) as (r & Hrun & Hchurn & Havg & Hhigh);
    [apply Forall_fmap, Forall_forall; intros v _; apply churn_map_int_or_missing
    | done |].
  exists r. split_and!; [done | | | | ].
  - rewrite Hhigh. apply count_high_risk_bounds.
  - rewrite Hhigh. pose proof (count_high_risk_bounds rs). lia.
  - exact (mean_of_bounds 100 rs _ Hbounds Havg).
  - destruct (mean_of_bounds 1 _ _ (churn_defined_bounds cChurn)
                (float_equiv_refl (mean_of (defined_ints (churn_map <$> cChurn)))))
      as [Hnan | (a & Ha & Hlo & Hhi)].
    + rewrite Hnan in Hchurn. left. by apply float_equiv_NaN.
    + rewrite Ha in Hchurn. cbn in Hchurn.
      apply float_equiv_Finite in Hchurn as (q & Hq & Hqa).
      right. exists q. split; [done|]. rewrite Hqa.
      change (inject_Z 1) with 1%Q in Hhi. change (inject_Z 100) with 100%Q.
      split; lra.
Qed.

(** The engineered and scored [sample_table]. *)
Lemma report_within_bounds_witness :
  ∃ r, report_stats scored_sample = Ok r ∧ 0 <= high_risk_base r <= 3.
Proof.
  destruct (report_within_bounds sample_table engineered_sample scored_sample
              engineered_sample_eq scored_sample_eq) as (r & Hrun & Hhigh & _).
  exists r. split; [exact Hrun | exact Hhigh].
Defined.

(** X16: on a well-formed table without rows (a file with a header only) the
    pipeline still runs, and the report shows NaN for the churn rate, NaN
    for the average risk and 0 high-risk customers. *)
Theorem report_of_empty_table df0 df1 df2 :
  wf df0 → nrows df0 = 0%nat →
  engineer_features df0 = Ok df1 → calculate_risk_scores df1 = Ok df2 →
  report_stats df2 = Ok (mkReport NaN NaN 0).
Proof.
  intros Hwf Hrows Heng Hscore.
  destruct (scored_columns df0 df1 df2 Heng Hscore)
    as (cChurn & rs & HCh & Hcn & Hrs & _ & Hlen & _).
  assert (cChurn = []) as ->.
  { apply length_zero_iff_nil. by rewrite (Hwf _ _ HCh). }
  assert (rs = []) as ->.
  { apply length_zero_iff_nil. lia. }
  unfold report_stats.
  by rewrite (getitem_Some _ _ _ Hcn), (getitem_Some _ _ _ Hrs).
Qed.

Lemma wf_empty_table : wf empty_table.
Proof.
  intros k c. unfold empty_table. cbn [columns nrows]. rewrite lookup_fmap.
  intros H. by apply fmap_Some in H as (l & _ & ->).
Qed.

Lemma engineered_empty_eq : engineer_features empty_table = Ok engineered_empty.
Proof. vm_compute. reflexivity. Qed.

Lemma scored_empty_eq : calculate_risk_scores engineered_empty = Ok scored_empty.
Proof. vm_compute. reflexivity. Qed.

(** The header-only [empty_table] goes through both steps. *)
Lemma report_of_empty_table_witness :
  engineer_features empty_table = Ok engineered_empty ∧
  calculate_risk_scores engineered_empty = Ok scored_empty ∧
  report_stats scored_empty = Ok (mkReport NaN NaN 0).
Proof.
  split_and!; [exact engineered_empty_eq | exact scored_empty_eq |].
  exact (report_of_empty_table empty_table engineered_empty scored_empty
           wf_empty_table eq_refl engineered_empty_eq scored_empty_eq).
Defined.

(** X17: when every churn label is "Yes" or "No" and the table has at least
    one row, the churn rate of the report is 100 times the number of "Yes"
    labels divided by the number of rows. *)
Theorem churn_rate_of_labelled df0 df1 df2 (c : list value) :
  engineer_features df0 = Ok df1 → calculate_risk_scores df1 = Ok df2 →
  columns df0 !! "Churn" = Some c →
  Forall (λ v, v = VStr "Yes" ∨ v = VStr "No") c → c ≠ [] →
  ∃ r, report_stats df2 = Ok r ∧
       float_equiv (churn_rate r)
         (Finite (inject_Z (count_yes c) / inject_Z (Z.of_nat (length c)) * 100)).
Proof.
  intros Heng Hscore Hc Hlab Hne.
  destruct (scored_columns df0 df1 df2 Heng Hscore)
    as (cChurn & rs & HCh & Hcn & Hrs & _).
  rewrite Hc in HCh. injection HCh as <-.
  destruct (report_stats_columns df2 _ rs Hcn) as (r & Hrun & Hchurn & _);
    [apply Forall_fmap, Forall_forall; intros v _; apply churn_map_int_or_missing
    | done |].
  exists r. split; [done|].
  destruct (churn_numeric_all_defined c Hlab) as [Hlen Hsum].
  destruct (defined_ints (churn_map <$> c)) as [|z zs] eqn:Hd.
  { destruct c; [done | discriminate Hlen]. }
  unfold mean_of in Hchurn. by rewrite Hsum, Hlen in Hchurn.
Qed.

(** In [sample_table] one of three customers churned. *)
Lemma churn_rate_of_labelled_witness :
  ∃ r, report_stats scored_sample = Ok r ∧
       float_equiv (churn_rate r) (Finite (inject_Z 1 / inject_Z 3 * 100)).
Proof.
  apply (churn_rate_of_labelled sample_table engineered_sample scored_sample
           [VStr "Yes"; VStr "No"; VStr "No"]).
  - exact engineered_sample_eq.
  - exact scored_sample_eq.
  - reflexivity.
  - constructor; [by left|]. constructor; [by right|]. constructor; [by right | constructor].
  - discriminate.
Defined.

(** ** Which exceptions reach the handler *)

Lemma bind_not_fnf {A B} (m : result A) (f : A → result B) :
  m ≠ Raise FileNotFoundError → (∀ a, f a ≠ Raise FileNotFoundError) →
  m ≫= f ≠ Raise FileNotFoundError.
Proof.
  intros Hm Hf. destruct m as [a|e]; [apply Hf|].
  intros H. apply Hm. by injection H as ->.
Qed.

Lemma getitem_not_fnf df k : getitem df k ≠ Raise FileNotFoundError.
Proof. unfold getitem. by destruct (columns df !! k). Qed.

Lemma map_cells_not_fnf {A B} (f : A → result B) (l : list A) :
  (∀ x, f x ≠ Raise FileNotFoundError) → map_cells f l ≠ Raise FileNotFoundError.
Proof.
  intros Hf H. apply map_cells_Raise in H as (x & _ & H). by apply (Hf x).
Qed.

Lemma getitems_not_fnf df ks : getitems df ks ≠ Raise FileNotFoundError.
Proof.
  intros H. by apply getitems_Raise in H as (missing & [=] & _).
Qed.

Lemma engineer_features_not_fnf df : engineer_features df ≠ Raise FileNotFoundError.
Proof.
  unfold engineer_features.
  repeat first
    [ apply getitems_not_fnf
    | apply bind_not_fnf; [|intros ?]
    | apply getitem_not_fnf
    | apply map_cells_not_fnf; intros ?
    | progress cbv zeta ];
    try discriminate.
  - by destruct x.
  - by destruct x as [[] ?].
  - by destruct x as [? []].
Qed.

Lemma calculate_risk_scores_not_fnf df :
  calculate_risk_scores df ≠ Raise FileNotFoundError.
Proof.
  unfold calculate_risk_scores.
  repeat first
    [ apply bind_not_fnf; [|intros ?]
    | apply getitem_not_fnf
    | apply map_cells_not_fnf; intros ?
    | progress cbv zeta ];
    try discriminate;
    first [by destruct x as [[] []] | by destruct x].
Qed.

Lemma clean_total_charges_not_fnf parse df :
  clean_total_charges parse df ≠ Raise FileNotFoundError.
Proof.
  destruct (columns df !! "TotalCharges") as [c|] eqn:Hc.
  - by rewrite (clean_total_charges_eq parse df c Hc).
  - unfold clean_total_charges, getitem. by rewrite Hc.
Qed.

Lemma handle_other e w : e ≠ FileNotFoundError → handle (Raise e, w) = (Uncaught e, w).
Proof. by destruct e. Qed.

(** ** The runs of main *)

Lemma process_data_Ok_inv parse (fs : gmap string DataFrame) path data :
  process_data parse fs path = Ok data →
  ∃ df0 dfc, fs !! path = Some df0 ∧
             clean_total_charges parse df0 = Ok dfc ∧ engineer_features dfc = Ok data.
Proof.
  unfold process_data, read_csv. intros H.
  destruct (fs !! path) as [df0|]; [|discriminate].
  rewrite bind_Ok in H. apply bind_Ok_inv in H as (dfc & Hc & He).
  by exists df0, dfc.
Qed.

Lemma process_data_Raise parse (fs : gmap string DataFrame) path e :
  process_data parse fs path = Raise e →
  (e = FileNotFoundError ∧ fs !! path = None) ∨ e ≠ FileNotFoundError.
Proof.
  unfold process_data, read_csv. intros H.
  destruct (fs !! path) as [df0|]; [|left; by injection H as <-].
  right. rewrite bind_Ok in H. intros ->.
  apply bind_Raise_inv in H as [H | (dfc & _ & H)].
  - by apply clean_total_charges_not_fnf in H.
  - by apply engineer_features_not_fnf in H.
Qed.

(** After a successful [process_data] and a successful scoring the
    aggregates of the report are defined. *)
Lemma report_stats_after_pipeline parse (fs : gmap string DataFrame) path data df2 :
  process_data parse fs path = Ok data → calculate_risk_scores data = Ok df2 →
  ∃ r, report_stats df2 = Ok r.
Proof.
  intros Hp Hs.
  apply process_data_Ok_inv in Hp as (df0 & dfc & _ & _ & Heng).
  destruct (scored_columns dfc data df2 Heng Hs) as (cChurn & rs & _ & Hcn & Hrs & _).
  destruct (report_stats_columns df2 _ rs Hcn) as (r & Hrun & _);
    [apply Forall_fmap, Forall_forall; intros v _; apply churn_map_int_or_missing
    | done |].
  by exists r.
Qed.

(** X18: every run of [main] ends in one of three ways: (1) normal exit with
    the missing-file message as the only new console line and no file
    written; (2) an uncaught exception other than FileNotFoundError, with
    nothing printed and no file written; (3) normal exit with the dashboard
    image written once and the sixteen lines of the report printed.  In
    particular the image is never written without the report, and the
    missing-file message never comes with an image. *)
Theorem main_outcomes parse draw_panels draw_risk_panel
    (fs : gmap string DataFrame) w :
  main parse draw_panels draw_risk_panel fs w
    = (Exit0, print (Text missing_file_message) w) ∨
  (∃ e, e ≠ FileNotFoundError ∧
        main parse draw_panels draw_risk_panel fs w = (Uncaught e, w)) ∨
  (∃ w' lines,
     main parse draw_panels draw_risk_panel fs w = (Exit0, w') ∧
     saved w' = saved w ++ ["Churn_Dashboard_v2.png"] ∧
     console w' = console w ++ lines ∧ length lines = 16%nat).
Proof.
  assert (∀ e, handle (Raise e, w) = (Exit0, print (Text missing_file_message) w) ∨
               (∃ e', e' ≠ FileNotFoundError ∧ handle (Raise e, w) = (Uncaught e', w)))
    as Hraise.
  { intros [|k|missing|]; [by left | right; exists (KeyError k); by split
                           | right; exists (KeyErrorNotInIndex missing); by split
                           | right; exists TypeError; by split]. }
  unfold main, pipeline.
  destruct (process_data parse fs "telco_churn.csv") as [data|e] eqn:Hp;
    [|destruct (Hraise e) as [H|H]; [by left | by right; left]].
  unfold create_dashboard.
  destruct (draw_panels data) as [[]|e];
    [|destruct (Hraise e) as [H|H]; [by left | by right; left]].
  destruct (calculate_risk_scores data) as [df2|e] eqn:Hs;
    [|destruct (Hraise e) as [H|H]; [by left | by right; left]].
  destruct (draw_risk_panel df2) as [[]|e];
    [|destruct (Hraise e) as [H|H]; [by left | by right; left]].
  destruct (report_stats_after_pipeline parse fs _ data df2 Hp Hs) as [r Hr].
  right; right. unfold generate_report. rewrite Hr.
  eexists _, _. split_and!; [reflexivity | | |].
  - rewrite (proj2 (print_all_app _ _)). reflexivity.
  - rewrite (proj1 (print_all_app _ _)). reflexivity.
  - reflexivity.
Qed.

Lemma engineer_input_cleaned df (c c' : list value) :
  engineer_input df → columns df !! "TotalCharges" = Some c → length c' = length c →
  engineer_input (setitem df "TotalCharges" c').
Proof.
  intros (Hwf & HCh & Hserv & (mc & Hmc & Hmcn) & (t & Ht & Htn) & HCo) Hc Hlen.
  assert (∀ k, k ≠ "TotalCharges" → has_column df k →
               has_column (setitem df "TotalCharges" c') k) as Hkeep.
  { intros k Hk [x Hx]. exists x. by rewrite columns_setitem_ne. }
  split_and!.
  - apply wf_setitem; [done|]. rewrite Hlen. by eapply Hwf.
  - by apply Hkeep.
  - unfold services in *.
    repeat (apply Forall_cons in Hserv as [? Hserv]).
    repeat constructor; by apply Hkeep.
  - exists mc. by rewrite columns_setitem_ne.
  - exists t. by rewrite columns_setitem_ne.
  - by apply Hkeep.
Qed.

(** On a table in the domain of the feature-engineering step, with a
    TotalCharges column, [process_data] returns, and the columns it does not
    assign are those of the file. *)
Lemma process_data_runs parse (fs : gmap string DataFrame) path df0 :
  fs !! path = Some df0 → engineer_input df0 → has_column df0 "TotalCharges" →
  ∃ data, process_data parse fs path = Ok data ∧
          ∀ k, k ≠ "TotalCharges" → k ∉ derived_columns →
               columns data !! k = columns df0 !! k.
Proof.
  intros Hfs Hin [c Hc]. unfold process_data, read_csv. rewrite Hfs, bind_Ok.
  rewrite (clean_total_charges_eq parse df0 c Hc), bind_Ok.
  set (dfc := setitem df0 "TotalCharges" _).
  assert (engineer_input dfc) as Hinc.
  { apply (engineer_input_cleaned df0 c); [done | done |].
    unfold fillna. by rewrite !length_fmap. }
  destruct (engineer_features_total dfc Hinc)
    as (cChurn & c1 & c2 & c3 & c4 & c5 & c6 & mc & t & t1 & cv & cContract & H).
  destruct H as (_ & _ & _ & _ & _ & _ & _ & _ & _ & _ & _ & _ & Hrun).
  eexists. split; [exact Hrun|].
  intros k Hk Hd. rewrite columns_engineered_other by done.
  by apply columns_setitem_ne.
Qed.

(** X19: if the file is there, its table is well formed with the ten
    columns of the feature-engineering step (numeric MonthlyCharges and
    tenure), a TotalCharges column and an InternetService column, and the
    drawing calls succeed, then [main] exits normally, writes the dashboard
    image and prints the sixteen lines of the report. *)
Theorem main_succeeds parse draw_panels draw_risk_panel
    (fs : gmap string DataFrame) df0 w :
  fs !! "telco_churn.csv" = Some df0 →
  engineer_input df0 →
  has_column df0 "TotalCharges" → has_column df0 "InternetService" →
  (∀ df, draw_panels df = Ok ()) → (∀ df, draw_risk_panel df = Ok ()) →
  ∃ w' lines,
    main parse draw_panels draw_risk_panel fs w = (Exit0, w') ∧
    saved w' = saved w ++ ["Churn_Dashboard_v2.png"] ∧
    console w' = console w ++ lines ∧ length lines = 16%nat.
Proof.
  intros Hfs Hin HTC [cI HI] Hd1 Hd2.
  destruct (process_data_runs parse fs _ df0 Hfs Hin HTC) as (data & Hp & Hframe).
  destruct Hin as (_ & _ & Hserv & _ & (t & Ht & Htn) & [cC HC]).
  unfold services in Hserv.
  do 3 apply Forall_cons in Hserv as [_ Hserv].
  apply Forall_cons in Hserv as [[cT HT] _].
  assert (∃ df2, calculate_risk_scores data = Ok df2) as [df2 Hs].
  { eexists. eapply (calculate_risk_scores_eq data cC cI cT t).
    - rewrite Hframe; [done | done | by not_in_list].
    - rewrite Hframe; [done | done | by not_in_list].
    - rewrite Hframe; [done | done | by not_in_list].
    - rewrite Hframe; [done | done | by not_in_list].
    - by apply lt_12_numeric. }
  destruct (report_stats_after_pipeline parse fs _ data df2 Hp Hs) as [r Hr].
  unfold main, pipeline, create_dashboard.
  rewrite Hp, Hd1, Hs, Hd2. unfold generate_report. rewrite Hr.
  eexists _, _. split_and!; [reflexivity | | |].
  - rewrite (proj2 (print_all_app _ _)). reflexivity.
  - rewrite (proj1 (print_all_app _ _)). reflexivity.
  - reflexivity.
Qed.

(** The run on [sample_table]. *)
Lemma main_succeeds_witness :
  ∃ w' lines,
    main sample_parse (λ _, Ok ()) (λ _, Ok ())
         {["telco_churn.csv" := sample_table]} initial_world = (Exit0, w') ∧
    saved w' = ["Churn_Dashboard_v2.png"] ∧
    console w' = lines ∧ length lines = 16%nat.
Proof.
  apply (main_succeeds sample_parse (λ _, Ok ()) (λ _, Ok ())
           {["telco_churn.csv" := sample_table]} sample_table initial_world).
  - apply lookup_singleton_eq.
  - exact engineer_input_sample.
  - by eexists.
  - by eexists.
  - done.
  - done.
Defined.

Lemma calculate_risk_scores_without_internet df (cC : list value) :
  columns df !! "Contract" = Some cC → columns df !! "InternetService" = None →
  calculate_risk_scores df = Raise (KeyError "InternetService").
Proof.
  intros HC HI. unfold calculate_risk_scores, setitem_scalar.
  rewrite <- (fmap_replicate VInt).
  rewrite getitem_setitem_ne, (getitem_Some _ _ _ HC), bind_Ok by done.
  erewrite loc_iadd_ints by apply lookup_insert_eq.
  rewrite bind_Ok, setitem_setitem, getitem_setitem_ne by done.
  unfold getitem. by rewrite HI.
Qed.

(** X20: InternetService is read by the scorer only.  If the file has every
    column that [process_data] needs but no InternetService column, the
    table is loaded and engineered, and the scorer raises
    KeyError('InternetService') on it.  Whatever the drawing calls do,
    [main] then saves no image and prints no report: if drawing the first
    four panels returns, the scorer inside [create_dashboard] raises and
    [main] ends with KeyError('InternetService') uncaught; if drawing them
    raises, that exception reaches the handler instead. *)
Theorem main_without_internet_service parse draw_panels draw_risk_panel
    (fs : gmap string DataFrame) df0 w :
  fs !! "telco_churn.csv" = Some df0 →
  engineer_input df0 → has_column df0 "TotalCharges" →
  columns df0 !! "InternetService" = None →
  ∃ data,
    process_data parse fs "telco_churn.csv" = Ok data ∧
    calculate_risk_scores data = Raise (KeyError "InternetService") ∧
    main parse draw_panels draw_risk_panel fs w
      = match draw_panels data with
        | Ok _ => (Uncaught (KeyError "InternetService"), w)
        | Raise e => handle (Raise e, w)
        end ∧
    saved (main parse draw_panels draw_risk_panel fs w).2 = saved w ∧
    ((main parse draw_panels draw_risk_panel fs w).2 = w ∨
     (main parse draw_panels draw_risk_panel fs w).2
       = print (Text missing_file_message) w).
Proof.
  intros Hfs Hin HTC HI.
  destruct (process_data_runs parse fs _ df0 Hfs Hin HTC) as (data & Hp & Hframe).
  destruct Hin as (_ & _ & _ & _ & _ & [cC HC]).
  assert (Hs : calculate_risk_scores data = Raise (KeyError "InternetService")).
  { apply (calculate_risk_scores_without_internet data cC).
    - rewrite Hframe; [done | done | by not_in_list].
    - rewrite Hframe; [done | done | by not_in_list]. }
  assert (Hm : main parse draw_panels draw_risk_panel fs w
      = match draw_panels data with
        | Ok _ => (Uncaught (KeyError "InternetService"), w)
        | Raise e => handle (Raise e, w)
        end).
  { unfold main, pipeline, create_dashboard. rewrite Hp.
    destruct (draw_panels data) as [[]|e]; [by rewrite Hs | done]. }
  exists data. split_and!; [done | done | done | |].
  - rewrite Hm. destruct (draw_panels data) as [[]|[|k|missing|]]; done.
  - rewrite Hm. destruct (draw_panels data) as [[]|[|k|missing|]];
      [by left | by right | by left | by left | by left].
Qed.

Lemma engineer_input_no_internet : engineer_input no_internet_table.
Proof.
  split_and!.
  - intros k c. unfold no_internet_table. cbn [columns nrows].
    intros H. apply lookup_delete_Some in H as [_ H]. by apply wf_sample_table in H.
  - by eexists.
  - unfold services. repeat constructor; by eexists.
  - eexists. split; [reflexivity|]. repeat constructor; intros [s [=]].
  - eexists. split; [reflexivity|]. repeat constructor; intros [s [=]].
  - by eexists.
Qed.

(** The run on [sample_table] without InternetService, with drawing calls
    that return. *)
Lemma main_without_internet_service_witness :
  main sample_parse (λ _, Ok ()) (λ _, Ok ())
       {["telco_churn.csv" := no_internet_table]} initial_world
  = (Uncaught (KeyError "InternetService"), initial_world).
Proof.
  destruct (main_without_internet_service sample_parse (λ _, Ok ()) (λ _, Ok ())
              {["telco_churn.csv" := no_internet_table]} no_internet_table
              initial_world) as (data & _ & _ & Hm & _).
  - apply lookup_singleton_eq.
  - exact engineer_input_no_internet.
  - by eexists.
  - reflexivity.
  - exact Hm.
Defined.

(** X21: when the drawing calls never raise FileNotFoundError, the
    missing-file message is printed exactly when no file is at the path
    'telco_churn.csv'. *)
Theorem missing_file_message_iff parse draw_panels draw_risk_panel
    (fs : gmap string DataFrame) w :
  (∀ df, draw_panels df ≠ Raise FileNotFoundError) →
  (∀ df, draw_risk_panel df ≠ Raise FileNotFoundError) →
  main parse draw_panels draw_risk_panel fs w
    = (Exit0, print (Text missing_file_message) w)
  ↔ fs !! "telco_churn.csv" = None.
Proof.
  intros Hd1 Hd2. split.
  - unfold main, pipeline. intros H.
    destruct (process_data parse fs "telco_churn.csv") as [data|e] eqn:Hp.
    + exfalso. unfold create_dashboard in H.
      destruct (draw_panels data) as [[]|e] eqn:H1.
      2:{ rewrite handle_other in H by (intros ->; by apply (Hd1 data)). discriminate H. }
      destruct (calculate_risk_scores data) as [df2|e] eqn:Hs.
      2:{ rewrite handle_other in H
            by (intros ->; by apply (calculate_risk_scores_not_fnf data)).
          discriminate H. }
      destruct (draw_risk_panel df2) as [[]|e] eqn:H2.
      2:{ rewrite handle_other in H by (intros ->; by apply (Hd2 df2)). discriminate H. }
      destruct (report_stats_after_pipeline parse fs _ data df2 Hp Hs) as [r Hr].
      unfold generate_report in H. rewrite Hr in H.
      apply (f_equal (λ p : outcome * world, length (saved p.2))) in H.
      cbn [handle snd] in H. rewrite (proj2 (print_all_app _ _)) in H.
      cbn [saved savefig print] in H. rewrite length_app in H. cbn [length] in H. lia.
    + apply process_data_Raise in Hp as [[_ Hnone] | Hne]; [done|].
      rewrite handle_other in H by done. discriminate H.
  - intros Hnone. unfold main, pipeline, process_data, read_csv. by rewrite Hnone.
Qed.

(** With the file of [sample_table] in place the message is not printed. *)
Lemma missing_file_message_iff_witness :
  main sample_parse (λ _, Ok ()) (λ _, Ok ())
       {["telco_churn.csv" := sample_table]} initial_world
  ≠ (Exit0, print (Text missing_file_message) initial_world).
Proof.
  intros H.
  apply (missing_file_message_iff sample_parse (λ _, Ok ()) (λ _, Ok ())
           {["telco_churn.csv" := sample_table]} initial_world) in H; [| done | done].
  by rewrite lookup_singleton_eq in H.
Defined.

(** ** Contract, Is_Long_Term and Risk_Score together *)

(** X22: in an engineered and scored table a row flagged Is_Long_Term = 1
    scores at most 60, and a Month-to-month row is flagged 0 and scores at
    least 40. *)
Theorem long_term_rows_score_at_most_60 df0 df1 df2 :
  wf df0 →
  engineer_features df0 = Ok df1 → calculate_risk_scores df1 = Ok df2 →
  ∀ i, (i < nrows df0)%nat →
    ∃ c flag score,
      cell df0 "Contract" i = Some c ∧
      cell df2 "Is_Long_Term" i = Some (VInt flag) ∧
      cell df2 "Risk_Score" i = Some (VInt score) ∧
      (flag = 1 → score <= 60) ∧
      (c = VStr "Month-to-month" → flag = 0 ∧ 40 <= score).
Proof.
  intros Hwf Heng Hscore i Hi.
  apply engineer_features_inv in Heng
    as (cChurn & c1 & c2 & c3 & c4 & c5 & c6 & mc & t & t1 & cv & cContract & H).
  destruct H as (_ & _ & _ & _ & H4 & _ & _ & _ & Ht & _ & _ & HCo & ->).
  set (df1 := engineered df0 cChurn [c1; c2; c3; c4; c5; c6] cv cContract) in *.
  apply calculate_risk_scores_inv in Hscore as (cC & cI & cT & cN & m & H).
  destruct H as (HC & HI & HT & HN & Hm & ->).
  unfold df1 in HC, HI, HT, HN.
  rewrite columns_engineered_other in HC, HI, HT, HN by not_in_list.
  rewrite HCo in HC. injection HC as <-.
  destruct (wf_column_lookup df0 _ _ i Hwf HCo Hi) as [c Hc].
  destruct (wf_column_lookup df0 _ _ i Hwf HI Hi) as [s Hs].
  destruct (wf_column_lookup df0 _ _ i Hwf HT Hi) as [ts Hts].
  destruct (wf_column_lookup df0 _ _ i Hwf HN Hi) as [n Hn].
  destruct (map_cells_lookup _ _ _ Hm) as [_ Hlk].
  destruct (Hlk i n Hn) as (b & _ & Hb).
  destruct (is_long_term_spec c) as (flag & Hflag & _ & Hiff).
  exists c, flag, (rule_contract c + rule_internet s + rule_support ts + (if b then 20 else 0)).
  split_and!.
  - by erewrite cell_lookup.
  - unfold cell. rewrite columns_setitem_ne by done.
    unfold df1. rewrite columns_engineered_long_term. cbn.
    by rewrite list_lookup_fmap, Hc; cbn; rewrite Hflag.
  - unfold cell, setitem; cbn. rewrite lookup_insert_eq; cbn.
    rewrite list_lookup_fmap.
    by erewrite (risk_column_lookup _ _ _ _ _ i c s ts b Hi Hc Hs Hts Hb).
  - intros Hone. apply Hiff in Hone.
    assert (rule_contract c = 0) as ->.
    { unfold rule_contract. by destruct Hone as [-> | ->]. }
    unfold rule_internet, rule_support.
    destruct (eq_str "Fiber optic" s), (eq_str "No" ts), b; lia.
  - intros ->. split.
    + cbv in Hflag. by injection Hflag as <-.
    + unfold rule_internet, rule_support. cbn [rule_contract eq_str].
      destruct (eq_str "Fiber optic" s), (eq_str "No" ts), b; cbn; lia.
Qed.

(** The first row of [sample_table] is Month-to-month. *)
Lemma long_term_rows_score_at_most_60_witness :
  ∃ flag score,
    cell scored_sample "Is_Long_Term" 0 = Some (VInt flag) ∧
    cell scored_sample "Risk_Score" 0 = Some (VInt score) ∧
    flag = 0 ∧ 40 <= score.
Proof.
  destruct (long_term_rows_score_at_most_60 sample_table engineered_sample scored_sample
              wf_sample_table engineered_sample_eq scored_sample_eq 0%nat)
    as (c & flag & score & Hc & Hflag & Hscore & _ & Hm2m); [cbn; lia|].
  exists flag, score. split; [exact Hflag|]. split; [exact Hscore|].
  apply Hm2m. vm_compute in Hc. by injection Hc as <-.
Defined.

(** The columns of [sample_table] that [process_data] leaves alone. *)
Lemma process_data_preserves_columns_witness :
  ∃ data, process_data sample_parse {["telco_churn.csv" := sample_table]}
            "telco_churn.csv" = Ok data ∧
          nrows data = 3%nat ∧
          columns data !! "tenure" = Some [VInt 3; VInt 48; VInt 0].
Proof.
  destruct (process_data sample_parse {["telco_churn.csv" := sample_table]}
              "telco_churn.csv") as [data|e] eqn:Hp.
  - exists data. split; [done|].
    destruct (process_data_preserves_columns _ _ _ _ Hp) as (df0 & Hfs & Hn & Hframe).
    rewrite lookup_singleton_eq in Hfs. injection Hfs as <-.
    split; [exact Hn|]. rewrite Hframe; [reflexivity | done | by not_in_list].
  - exfalso. vm_compute in Hp. discriminate Hp.
Defined.
